(** * Creative Media Co-Pilot: the validate-and-refine control loop

    A shallow embedding of [main.py]: the shared workflow state, the three
    agent nodes ([writer_node], [reviewer_node], [art_director_node]), the
    routing decision ([router_function]), the compiled graph and the entry
    point [run_campaign_generator].

    Conventions.
    - A Python [str] is a list of Unicode code points ([pystr]), so that
      [len], slicing and [in] count what Python counts.
    - A Python [int] is a [Z].
    - The language model, the image service and the clocks are the outside
      world: a [World] record gives, for every superstep of the graph, what
      each of them answers.  Every theorem quantifies over all worlds.
    - A node returns a partial dictionary ([update]); the graph merges it
      into the state, last value wins. *)

From Stdlib Require Import ZArith NArith QArith Strings.String Strings.Ascii
  Numbers.DecimalString.
From stdpp Require Import base list.

Local Open Scope Z_scope.

(** ** Python strings *)

Module PyStr.

Definition pystr := list N.

(** A literal with ASCII characters only. *)
Definition py (s : string) : pystr := N_of_ascii <$> list_ascii_of_string s.

Definition len (s : pystr) : Z := Z.of_nat (length s).

(** [s.startswith(p)] *)
Fixpoint startswith (p s : pystr) : bool :=
  match p, s with
  | [], _ => true
  | _ :: _, [] => false
  | a :: p', b :: s' => N.eqb a b && startswith p' s'
  end.

(** [needle in hay] *)
Fixpoint contains (needle hay : pystr) : bool :=
  startswith needle hay ||
  match hay with
  | [] => false
  | _ :: hay' => contains needle hay'
  end.

(** [str.upper] and [str.lower].  The program only searches the result
    for ASCII literals, so what matters is which code points become ASCII
    letters: a-z and A-Z, and for [lower] the Kelvin sign U+212A, which
    Python maps to k.  The other code points outside ASCII are left as they
    are; where Python turns one into an ASCII letter with a combining mark
    (U+0130, U+1E9A) or into I, S, F, L, T, N, J, H, W, Y, the letter
    cannot be part of an occurrence of a literal searched for. *)
Definition upper_cp (c : N) : N :=
  if (97 <=? c)%N && (c <=? 122)%N then (c - 32)%N else c.

Definition lower_cp (c : N) : N :=
  if (65 <=? c)%N && (c <=? 90)%N then (c + 32)%N
  else if (c =? 8490)%N then 107%N
  else c.

Definition upper (s : pystr) : pystr := upper_cp <$> s.
Definition lower (s : pystr) : pystr := lower_cp <$> s.

(** [str.isspace] of one code point: the white space of Unicode. *)
Definition isspace (c : N) : bool :=
  ((9 <=? c) && (c <=? 13) || (28 <=? c) && (c <=? 32) ||
   (c =? 133) || (c =? 160) || (c =? 5760) ||
   (8192 <=? c) && (c <=? 8202) || (c =? 8232) || (c =? 8233) ||
   (c =? 8239) || (c =? 8287) || (c =? 12288))%N.

Fixpoint lstrip (s : pystr) : pystr :=
  match s with
  | [] => []
  | c :: s' => if isspace c then lstrip s' else s
  end.

Definition rstrip (s : pystr) : pystr := reverse (lstrip (reverse s)).

(** [s.strip()] *)
Definition strip (s : pystr) : pystr := rstrip (lstrip s).

(** [str(n)] for an integer. *)
Definition str_of_int (n : Z) : pystr := py (NilEmpty.string_of_int (Z.to_int n)).

(** [int(x)] for a float, read as a rational: truncation towards zero. *)
Definition int_of_float (x : Q) : Z := Z.quot (Qnum x) (Z.pos (Qden x)).

(** Python's [x or y] on strings and on [Optional[str]]. *)
Definition or_else (x : option pystr) (y : pystr) : pystr :=
  match x with
  | Some (_ :: _ as s) => s
  | _ => y
  end.

End PyStr.
Export PyStr.

(** ** The shared state ([CreativeWorkflowState]) *)

(** One entry of [agent_execution_log], as built by [log_agent_action]. *)
Record log_entry := {
  timestamp : pystr;
  agent : pystr;
  action : pystr;
  result_length : Z;
  status : pystr;
  iteration : Z
}.

(** The [TypedDict] is total: every key is present in a state.  A
    [state.get(key, default)] of the source therefore reads the key. *)
Record CreativeWorkflowState := {
  user_prompt : pystr;
  draft_text : pystr;
  review_feedback : list pystr;
  final_approved_text : option pystr;
  image_url : pystr;
  retries : Z;
  current_iteration : Z;
  workflow_start_time : Q;
  agent_execution_log : list log_entry;
  compliance_flags : list pystr;
  is_approved : bool
}.

(** What a node returns: a dictionary with some of the keys of the state. *)
Module Update.
Record t := {
  draft_text : option pystr;
  review_feedback : option (list pystr);
  final_approved_text : option (option pystr);
  image_url : option pystr;
  retries : option Z;
  current_iteration : option Z;
  agent_execution_log : option (list log_entry);
  compliance_flags : option (list pystr);
  is_approved : option bool
}.
End Update.

(** The graph writes every key of the update over the state. *)
Definition merge (state : CreativeWorkflowState) (u : Update.t)
  : CreativeWorkflowState :=
  {| user_prompt := user_prompt state;
     draft_text := default (draft_text state) (Update.draft_text u);
     review_feedback :=
       default (review_feedback state) (Update.review_feedback u);
     final_approved_text :=
       default (final_approved_text state) (Update.final_approved_text u);
     image_url := default (image_url state) (Update.image_url u);
     retries := default (retries state) (Update.retries u);
     current_iteration :=
       default (current_iteration state) (Update.current_iteration u);
     workflow_start_time := workflow_start_time state;
     agent_execution_log :=
       default (agent_execution_log state) (Update.agent_execution_log u);
     compliance_flags :=
       default (compliance_flags state) (Update.compliance_flags u);
     is_approved := default (is_approved state) (Update.is_approved u) |}.

(** ** The outside world *)

Inductive llm_reply :=
| Content (text : pystr)      (* [response.content] *)
| LlmRaises.                  (* [invoke] raises *)

(** [llm.invoke] with the fixed system prompt of the agent: the superstep
    and the content of the [HumanMessage] give the reply. *)
Definition chat_model := nat -> pystr -> llm_reply.

Inductive hf_reply :=
| ImageSaved                  (* [text_to_image] and [image.save] succeed *)
| HfRaises (message : pystr). (* one of them raises; [str(e)] *)

Record World := {
  writer_llm : option chat_model;
  reviewer_llm : option chat_model;
  HF_CLIENT : option (nat -> pystr -> hf_reply);
  time_time : nat -> Q;           (* [time.time()] *)
  datetime_now : nat -> pystr     (* [datetime.now().isoformat()] *)
}.

(** The [try] block around an LLM call: [None] when the client is missing
    or the call raises, which sends the node to its [except] branch. *)
Definition invoke (llm : option chat_model) (tick : nat) (message : pystr)
  : option pystr :=
  match llm with
  | None => None
  | Some model =>
      match model tick message with
      | Content text => Some (strip text)
      | LlmRaises => None
      end
  end.

(** ** The agent nodes *)

Definition APPROVED : pystr := py "APPROVED".

Definition log_agent_action (w : World) (tick : nat)
    (state : CreativeWorkflowState) (agent_name action result status : pystr)
  : log_entry :=
  {| timestamp := datetime_now w tick;
     agent := agent_name;
     action := action;
     result_length := len result;
     status := status;
     iteration := current_iteration state |}.

(** The two templates of the [except] branch of [writer_node]. *)
Definition fallback_revision (product_short : pystr) : pystr :=
  [127775%N] ++ py " Discover " ++ product_short ++
  py "! Eco-conscious. Quality crafted. Get yours now! " ++ [128154%N].

Definition fallback_first_draft (product_short : pystr) : pystr :=
  [10024%N] ++ py " NEW: " ++ product_short ++
  py "! Perfect for the modern lifestyle. Shop today! " ++ [128640%N].

Definition writer_user_message (state : CreativeWorkflowState) : pystr :=
  let product := user_prompt state in
  let user_message := py "Create an engaging social media ad for: " ++ product in
  match last (review_feedback state) with
  | Some latest_feedback =>
      if negb (contains APPROVED latest_feedback)
      then user_message ++ [10%N; 10%N] ++ py "Previous feedback: " ++
           latest_feedback ++ [10%N] ++ py "Please revise accordingly."
      else user_message
  | None => user_message
  end.

Definition writer_node (w : World) (tick : nat)
    (state : CreativeWorkflowState) : Update.t :=
  let iteration := current_iteration state + 1 in
  let retries := retries state in
  let product := user_prompt state in
  let '(draft, status) :=
    match invoke (writer_llm w) tick (writer_user_message state) with
    | Some draft => (draft, py "SUCCESS")
    | None =>
        let product_short := take 40 product in
        let draft :=
          match review_feedback state with
          | _ :: _ => fallback_revision product_short
          | [] => fallback_first_draft product_short
          end in
        (draft, py "FALLBACK")
    end in
  let log_entry :=
    log_agent_action w tick state (py "Writer") (py "copy_generation")
      draft status in
  {| Update.draft_text := Some draft;
     Update.review_feedback := None;
     Update.final_approved_text := None;
     Update.image_url := None;
     Update.retries := Some (retries + 1);
     Update.current_iteration := Some iteration;
     Update.agent_execution_log :=
       Some (agent_execution_log state ++ [log_entry]);
     Update.compliance_flags := None;
     Update.is_approved := None |}.

(** *** The rule-based compliance checker (the [except] branch of
    [reviewer_node]) *)

Definition banned_phrases : list pystr :=
  [py "100%"; py "guarantee"; py "guaranteed"; py "miracle";
   py "instant results"; py "best in the world"; py "never";
   py "always works"; py "scientifically proven"; py "approved by";
   py "clinically tested"].

Definition negative_words : list pystr :=
  [py "toxic"; py "harmful"; py "dangerous"; py "problem"; py "issue"].

Definition claim_issue (phrase : pystr) : pystr :=
  py "[CLAIM] Remove unverified claim: '" ++ phrase ++ py "'".

Definition tone_issue : pystr := py "[TONE] Avoid negative language".

Definition clarity_issue : pystr :=
  py "[CLARITY] Keep under 280 characters for social media".

(** The [for phrase in banned_phrases: ... break] loop: the issue of the
    first phrase found, appended to [issues]. *)
Fixpoint banned_claims (phrases : list pystr) (draft_lower : pystr)
    (issues : list pystr) : list pystr :=
  match phrases with
  | [] => issues
  | phrase :: rest =>
      if contains phrase draft_lower
      then issues ++ [claim_issue phrase]
      else banned_claims rest draft_lower issues
  end.

Definition rule_based_review (draft : pystr) : pystr :=
  let draft_lower := lower draft in
  let issues := [] in
  let issues := banned_claims banned_phrases draft_lower issues in
  let issues :=
    if existsb (fun word => contains word draft_lower) negative_words
    then issues ++ [tone_issue] else issues in
  let issues :=
    if 280 <? len draft then issues ++ [clarity_issue] else issues in
  match issues with
  | first :: _ => first
  | [] => APPROVED
  end.

Definition review_prompt (draft : pystr) : pystr :=
  py "Review this ad copy: " ++ [34%N] ++ draft ++ [34%N; 10%N; 10%N] ++
  py "Is it compliant and ready to publish?".

(** The verdict of one review and the status logged with it. *)
Definition review (w : World) (tick : nat) (draft : pystr) : pystr * pystr :=
  match invoke (reviewer_llm w) tick (review_prompt draft) with
  | Some feedback => (feedback, py "SUCCESS")
  | None => (rule_based_review draft, py "FALLBACK")
  end.

(** ["APPROVED" in feedback.upper()] *)
Definition signals_approval (feedback : pystr) : bool :=
  contains APPROVED (upper feedback).

(** [compliance_flags] is the list held by the state, appended to in place
    and handed back in the update: one list, with or without the new flag. *)
Definition reviewer_node (w : World) (tick : nat)
    (state : CreativeWorkflowState) : Update.t :=
  let draft := draft_text state in
  let '(feedback, status) := review w tick draft in
  let is_approved := signals_approval feedback in
  let approved_text :=
    if is_approved then Some draft else final_approved_text state in
  let compliance_flags := compliance_flags state in
  let compliance_flags :=
    if negb is_approved && negb (bool_decide (feedback ∈ compliance_flags))
    then compliance_flags ++ [feedback] else compliance_flags in
  let log_entry :=
    log_agent_action w tick state (py "Reviewer") (py "compliance_check")
      feedback status in
  {| Update.draft_text := None;
     Update.review_feedback := Some (review_feedback state ++ [feedback]);
     Update.final_approved_text := Some approved_text;
     Update.image_url := None;
     Update.retries := None;
     Update.current_iteration := None;
     Update.agent_execution_log :=
       Some (agent_execution_log state ++ [log_entry]);
     Update.compliance_flags := Some compliance_flags;
     Update.is_approved := Some is_approved |}.

(** *** The art director *)

Definition generate_image_with_hf (w : World) (tick : nat) (prompt : pystr)
  : pystr :=
  match HF_CLIENT w with
  | None => py "Simulated image URL (no API token provided)"
  | Some client =>
      match client tick prompt with
      | ImageSaved =>
          let filename :=
            py "campaign_output_" ++ str_of_int (int_of_float (time_time w tick)) ++
            py ".png" in
          py "Generated: " ++ filename
      | HfRaises message =>
          py "[Image generation error: " ++ take 50 message ++ py "...]"
      end
  end.

(** The prompt [art_director_node] sends to the image service. *)
Definition image_prompt (state : CreativeWorkflowState) : pystr :=
  let product := user_prompt state in
  let approved_text := final_approved_text state in
  py "Professional product photography and marketing design. " ++
  py "Product: " ++ product ++ py ". " ++
  py "Style: High-quality, clean background, vibrant colors, modern marketing aesthetic. " ++
  py "Resolution: 4K, studio lighting, professional product shot.".

(** [generate_image_with_hf] catches every exception itself, so the
    [except] branch of the node is never taken and the status is SUCCESS. *)
Definition art_director_node (w : World) (tick : nat)
    (state : CreativeWorkflowState) : Update.t :=
  let iteration := current_iteration state + 1 in
  let image_url := generate_image_with_hf w tick (image_prompt state) in
  let status := py "SUCCESS" in
  let log_entry :=
    log_agent_action w tick state (py "Art Director") (py "image_generation")
      image_url status in
  {| Update.draft_text := None;
     Update.review_feedback := None;
     Update.final_approved_text := None;
     Update.image_url := Some image_url;
     Update.retries := None;
     Update.current_iteration := Some iteration;
     Update.agent_execution_log :=
       Some (agent_execution_log state ++ [log_entry]);
     Update.compliance_flags := None;
     Update.is_approved := None |}.

(** ** Conditional routing *)

Definition max_retries : Z := 3.

Definition generate_image : pystr := py "generate_image".
Definition revise_draft : pystr := py "revise_draft".

Definition router_function (state : CreativeWorkflowState) : pystr :=
  let latest_feedback :=
    match review_feedback state with
    | _ :: _ => default [] (last (review_feedback state))
    | [] => []
    end in
  let current_retries := retries state in
  if max_retries <? current_retries then generate_image
  else if signals_approval latest_feedback then generate_image
  else revise_draft.

(** ** The compiled graph *)

Inductive node := writer | reviewer | art_director.

Inductive destination := to_node (n : node) | END.

(** The names the nodes are added under; they are the keys of the events. *)
Definition node_name (n : node) : pystr :=
  match n with
  | writer => py "writer"
  | reviewer => py "reviewer"
  | art_director => py "art_director"
  end.

Definition entry_point : node := writer.

Definition path_map : list (pystr * destination) :=
  [(py "generate_image", to_node art_director);
   (py "revise_draft", to_node writer);
   (py "end", END)].

Fixpoint path_lookup (key : pystr) (paths : list (pystr * destination))
  : option destination :=
  match paths with
  | [] => None
  | (k, d) :: rest => if bool_decide (k = key) then Some d else path_lookup key rest
  end.

(** The edges: [writer -> reviewer], [art_director -> END], and after the
    reviewer the router, read on the state that holds the reviewer's
    update.  A key missing from [path_map] raises. *)
Definition successor (n : node) (state : CreativeWorkflowState)
  : option destination :=
  match n with
  | writer => Some (to_node reviewer)
  | art_director => Some END
  | reviewer => path_lookup (router_function state) path_map
  end.

Definition run_node (w : World) (tick : nat) (n : node)
    (state : CreativeWorkflowState) : Update.t :=
  match n with
  | writer => writer_node w tick state
  | reviewer => reviewer_node w tick state
  | art_director => art_director_node w tick state
  end.

(** One superstep: the node that ran, the dictionary it returned and the
    state after the merge.  [app.stream] yields [{node_name: output}]. *)
Record superstep := {
  ran : node;
  output : Update.t;
  after : CreativeWorkflowState
}.

Inductive stream_end :=
| Finished              (* the graph reached END *)
| GraphRecursionError   (* recursion_limit supersteps did not reach END *)
| KeyError.             (* the router named no branch of path_map *)

(** [app.stream(inputs, {"recursion_limit": limit})]: at most [limit]
    supersteps, one node each, starting at superstep [tick] in node [n];
    a run that needs more raises.  The events are the nodes' outputs keyed
    by node name, the streaming mode of a compiled [StateGraph]. *)
Fixpoint stream (w : World) (limit : nat) (tick : nat) (n : node)
    (state : CreativeWorkflowState) : list superstep * stream_end :=
  match limit with
  | O => ([], GraphRecursionError)
  | S limit' =>
      let u := run_node w tick n state in
      let state' := merge state u in
      let this := {| ran := n; output := u; after := state' |} in
      match successor n state' with
      | None => ([this], KeyError)
      | Some END => ([this], Finished)
      | Some (to_node n') =>
          let '(events, ending) := stream w limit' (S tick) n' state' in
          (this :: events, ending)
      end
  end.

(** ** The entry point *)

Module Result.
Record t := {
  final_approved_text : pystr;
  image_url : pystr;
  retries : Z;
  review_feedback : list pystr;
  compliance_flags : list pystr;
  execution_time : Q;
  agent_log : list log_entry;
  is_approved : bool
}.
End Result.

(** The step ceiling passed to [app.stream].  In some releases of the
    graph library the start-up step of the graph counts against it, which
    leaves nine supersteps for the nodes; in the others ten. *)
Definition recursion_limit : nat := 10.

Definition inputs (w : World) (product_description : pystr)
  : CreativeWorkflowState :=
  {| user_prompt := product_description;
     draft_text := [];
     review_feedback := [];
     final_approved_text := None;
     image_url := [];
     retries := 0;
     current_iteration := 0;
     workflow_start_time := time_time w 0;
     agent_execution_log := [];
     compliance_flags := [];
     is_approved := false |}.

(** The summary is read from [result_state], the dictionary of the last
    event: the output of the last node that ran. *)
Definition summary (result_state : Update.t) (workflow_duration : Q)
  : Result.t :=
  let approved_copy :=
    or_else (mjoin (Update.final_approved_text result_state))
            (default (py "N/A") (Update.draft_text result_state)) in
  let image_url := default (py "N/A") (Update.image_url result_state) in
  {| Result.final_approved_text := approved_copy;
     Result.image_url := image_url;
     Result.retries := default 0 (Update.retries result_state);
     Result.review_feedback :=
       default [] (Update.review_feedback result_state);
     Result.compliance_flags :=
       default [] (Update.compliance_flags result_state);
     Result.execution_time := workflow_duration;
     Result.agent_log :=
       default [] (Update.agent_execution_log result_state);
     Result.is_approved :=
       default false (Update.is_approved result_state) |}.

Definition run_campaign_generator (w : World) (product_description : pystr)
  : option Result.t :=
  let workflow_start := time_time w 0 in
  let '(events, ending) :=
    stream w recursion_limit 1 entry_point (inputs w product_description) in
  match ending with
  | Finished =>
      match last events with
      | None => None
      | Some final_state =>
          let result_state := output final_state in
          let workflow_duration :=
            (time_time w (S (length events)) - workflow_start)%Q in
          Some (summary result_state workflow_duration)
      end
  | _ => None
  end.

(** The state the graph holds when the stream ends. *)
Definition final_graph_state (w : World) (product_description : pystr)
  : CreativeWorkflowState :=
  let '(events, _) :=
    stream w recursion_limit 1 entry_point (inputs w product_description) in
  default (inputs w product_description) (after <$> last events).

(** ** Steps, events and the decision table *)

Definition step (w : World) (tick : nat) (n : node)
    (state : CreativeWorkflowState) : CreativeWorkflowState :=
  merge state (run_node w tick n state).

(** The verdict the reviewer appends at this superstep. *)
Definition verdict (w : World) (tick : nat) (state : CreativeWorkflowState)
  : pystr :=
  (review w tick (draft_text state)).1.

#[global] Instance node_eq_dec : EqDecision node.
Proof. solve_decision. Defined.

(** The decision table of the router, in its documented order:
    retry ceiling first, then approval, then revision. *)
Inductive transition := proceed_to_asset_forced | proceed_to_asset | revise.

Definition latest_entry (history : list pystr) : pystr :=
  default [] (last history).

Definition first_match (attempt_count : Z) (latest_feedback : pystr)
  : transition :=
  if bool_decide (attempt_count > max_retries) then proceed_to_asset_forced
  else if signals_approval latest_feedback then proceed_to_asset
  else revise.

Definition transition_key (t : transition) : pystr :=
  match t with
  | proceed_to_asset_forced | proceed_to_asset => generate_image
  | revise => revise_draft
  end.

Definition event_of (w : World) (tick : nat) (n : node)
    (state : CreativeWorkflowState) : superstep :=
  {| ran := n; output := run_node w tick n state; after := step w tick n state |}.

Definition push (e : superstep) (r : list superstep * stream_end)
  : list superstep * stream_end :=
  (e :: r.1, r.2).

Definition writer_runs (events : list superstep) : nat :=
  length (filter (fun e => ran e = writer) events).

(** The states a run goes through: the inputs, then the state after each
    superstep. *)
Definition states_of (state : CreativeWorkflowState)
    (events : list superstep) : list CreativeWorkflowState :=
  state :: (after <$> events).

(** ** The rule-based checker as a list of rules, first match wins *)

Definition first_match_verdict (draft : pystr) : pystr :=
  match find (fun phrase => contains phrase (lower draft)) banned_phrases with
  | Some phrase => claim_issue phrase
  | None =>
      if existsb (fun word => contains word (lower draft)) negative_words
      then tone_issue
      else if bool_decide (len draft > 280) then clarity_issue
      else APPROVED
  end.

(** ** Verdict formats of the reviewer's instructions *)

Definition recognized_tags : list pystr :=
  [py "[CLAIM]"; py "[TONE]"; py "[CLARITY]"; py "[OTHER]"].

(** A verdict that is neither the approval marker nor a tagged rejection. *)
Definition malformed (feedback : pystr) : bool :=
  negb (bool_decide (feedback = APPROVED)) &&
  negb (existsb (fun tag => startswith tag feedback) recognized_tags).

(** ** Runs *)

(** [events] are consecutive supersteps of the graph out of [state]: each
    one is a node run on the state the one before left. *)
Fixpoint supersteps_from (w : World) (state : CreativeWorkflowState)
    (events : list superstep) : Prop :=
  match events with
  | [] => True
  | e :: rest =>
      (exists tick, e = event_of w tick (ran e) state) /\
      supersteps_from w (after e) rest
  end.

(** What one superstep may do to the counters and to the history. *)
Definition advances (n : node) (state state' : CreativeWorkflowState) : Prop :=
  retries state' = (if bool_decide (n = writer)
                    then retries state + 1 else retries state) /\
  current_iteration state <= current_iteration state' /\
  match n with
  | reviewer =>
      exists feedback,
        review_feedback state' = review_feedback state ++ [feedback]
  | _ => review_feedback state' = review_feedback state
  end.

(** The order the states of one run are in. *)
Definition grows (state state' : CreativeWorkflowState) : Prop :=
  retries state <= retries state' /\
  current_iteration state <= current_iteration state' /\
  review_feedback state `prefix_of` review_feedback state'.

(** Feedback propagation over the events of one run: whenever a draft is
    reviewed, rejected and written again, the new draft is another text. *)
Definition feedback_propagation (events : list superstep) : Prop :=
  forall i drafted reviewed redrafted,
    events !! i = Some drafted ->
    events !! S i = Some reviewed ->
    events !! S (S i) = Some redrafted ->
    ran drafted = writer -> ran reviewed = reviewer ->
    ran redrafted = writer ->
    is_approved (after reviewed) = false ->
    draft_text (after redrafted) <> draft_text (after drafted).

(** ** Sample worlds and states *)

(** No API key is configured: both LLM clients and the image client are
    missing, every node takes its fallback. *)
Definition offline : World :=
  {| writer_llm := None;
     reviewer_llm := None;
     HF_CLIENT := None;
     time_time := fun _ => 0%Q;
     datetime_now := fun _ => py "2025-01-01T00:00:00" |}.

(** The reviewer LLM answers [reply] to every draft; the writer takes its
    fallback. *)
Definition reviewer_says (reply : pystr) : World :=
  {| writer_llm := None;
     reviewer_llm := Some (fun _ _ => Content reply);
     HF_CLIENT := None;
     time_time := fun _ => 0%Q;
     datetime_now := fun _ => py "2025-01-01T00:00:00" |}.

(** A state in the middle of a run. *)
Definition state_at (brief draft : pystr) (history flags : list pystr)
    (attempts : Z) : CreativeWorkflowState :=
  {| user_prompt := brief;
     draft_text := draft;
     review_feedback := history;
     final_approved_text := None;
     image_url := [];
     retries := attempts;
     current_iteration := attempts;
     workflow_start_time := 0%Q;
     agent_execution_log := [];
     compliance_flags := flags;
     is_approved := false |}.

Definition bamboo : pystr := py "bamboo water bottle".

Definition hundred_percent : pystr := py "100% bamboo bottle".

(** The reviewer LLM rejects with the same claim issue until superstep
    [approve_from], and approves from then on. *)
Definition reviewer_approves_from (approve_from : nat) : World :=
  {| writer_llm := None;
     reviewer_llm :=
       Some (fun tick _ =>
               if (tick <? approve_from)%nat
               then Content (py "[CLAIM] Remove '100%' - it's unverified")
               else Content APPROVED);
     HF_CLIENT := Some (fun _ _ => ImageSaved);
     time_time := fun _ => (1735689600 # 1)%Q;
     datetime_now := fun _ => py "2025-01-01T00:00:00" |}.

(** ** Positions of a run *)

(** A verdict the code does not read as an approval. *)
Definition rejected (feedback : pystr) : Prop :=
  signals_approval feedback = false.

(** What holds of the state when node [n] is about to run, in a run on the
    brief [brief]. *)
Definition run_invariant (brief : pystr) (n : node)
    (state : CreativeWorkflowState) : Prop :=
  user_prompt state = brief /\
  current_iteration state = retries state /\
  (forall x, x ∈ compliance_flags state <->
             x ∈ review_feedback state /\ rejected x) /\
  match n with
  | writer =>
      retries state = Z.of_nat (length (review_feedback state)) /\
      retries state <= max_retries /\
      is_approved state = false /\
      final_approved_text state = None /\
      Forall rejected (review_feedback state)
  | reviewer =>
      retries state = Z.of_nat (length (review_feedback state)) + 1 /\
      retries state <= max_retries + 1 /\
      is_approved state = false /\
      final_approved_text state = None /\
      Forall rejected (review_feedback state)
  | art_director =>
      retries state = Z.of_nat (length (review_feedback state)) /\
      retries state <= max_retries + 1 /\
      exists history feedback,
        review_feedback state = history ++ [feedback] /\
        Forall rejected history /\
        is_approved state = signals_approval feedback /\
        final_approved_text state =
          (if signals_approval feedback then Some (draft_text state)
           else None) /\
        (rejected feedback -> retries state = max_retries + 1)
  end.

(** The name a node logs its action under. *)
Definition agent_label (n : node) : pystr :=
  match n with
  | writer => py "Writer"
  | reviewer => py "Reviewer"
  | art_director => py "Art Director"
  end.

(** The request the writer sends for a brief, without and with a verdict
    to answer. *)
Definition first_request (product : pystr) : pystr :=
  py "Create an engaging social media ad for: " ++ product.

Definition revision_request (product latest_feedback : pystr) : pystr :=
  first_request product ++ [10%N; 10%N] ++ py "Previous feedback: " ++
  latest_feedback ++ [10%N] ++ py "Please revise accordingly.".

(** Both LLM clients fail at every call of this world. *)
Definition llms_down (w : World) : Prop :=
  (forall tick message, invoke (writer_llm w) tick message = None) /\
  (forall tick message, invoke (reviewer_llm w) tick message = None).

(** The state the graph holds when a stream ends. *)
Definition end_state (w : World) (limit tick : nat) (n : node)
    (state : CreativeWorkflowState) : CreativeWorkflowState :=
  default state (after <$> last (stream w limit tick n state).1).

(** The two verdicts the rule-based checker can give in a run without
    LLMs: on the first-draft template and on the revision template. *)
Definition first_fallback_verdict (brief : pystr) : pystr :=
  rule_based_review (fallback_first_draft (take 40 brief)).

Definition revision_fallback_verdict (brief : pystr) : pystr :=
  rule_based_review (fallback_revision (take 40 brief)).

(** * The helper scripts *)

(** ** [utils.py]: the setup check *)

(** Python's [str * n] for one character. *)
Definition repeat_char (c : N) (n : nat) : pystr := replicate n c.

(** ["\n".join(lines)] *)
Fixpoint join_lines (lines : list pystr) : pystr :=
  match lines with
  | [] => []
  | [line] => line
  | line :: rest => line ++ [10%N] ++ join_lines rest
  end.

Definition required_keys : list (pystr * pystr) :=
  [(py "GROQ_API_KEY", py "gsk_"); (py "TOGETHER_API_KEY", [])].

Definition invalid_key_issue (key_name prefix : pystr) : pystr :=
  key_name ++ py " (should start with '" ++ prefix ++ py "')".

(** The loop over [required_keys]; [getenv] is [os.getenv] once the .env
    file is loaded.  An unset and an empty variable are both missing. *)
Fixpoint scan_keys (getenv : pystr -> option pystr)
    (keys : list (pystr * pystr)) (missing_keys invalid_keys : list pystr)
  : list pystr * list pystr :=
  match keys with
  | [] => (missing_keys, invalid_keys)
  | (key_name, prefix) :: rest =>
      match getenv key_name with
      | None | Some [] =>
          scan_keys getenv rest (missing_keys ++ [key_name]) invalid_keys
      | Some value =>
          if negb (bool_decide (prefix = [])) && negb (startswith prefix value)
          then scan_keys getenv rest missing_keys
                 (invalid_keys ++ [invalid_key_issue key_name prefix])
          else scan_keys getenv rest missing_keys invalid_keys
      end
  end.

Definition validate_api_keys (getenv : pystr -> option pystr)
  : bool * list pystr :=
  let '(missing_keys, invalid_keys) := scan_keys getenv required_keys [] [] in
  let all_issues := missing_keys ++ invalid_keys in
  let is_valid := bool_decide (length all_issues = 0%nat) in
  (is_valid, all_issues).

(** What [setup_check] looks at on the machine. *)
Record Machine := {
  dotenv_exists : bool;                 (* [os.path.exists(".env")] *)
  getenv : pystr -> option pystr;
  importable : pystr -> bool            (* [__import__(package)] succeeds *)
}.

Definition required_packages : list pystr :=
  [py "langgraph"; py "langchain"; py "langchain_huggingface";
   py "replicate"; py "dotenv"].

Fixpoint missing_among (m : Machine) (packages missing_packages : list pystr)
  : list pystr :=
  match packages with
  | [] => missing_packages
  | package :: rest =>
      if importable m package then missing_among m rest missing_packages
      else missing_among m rest (missing_packages ++ [package])
  end.

Definition setup_check (m : Machine) : bool :=
  if negb (dotenv_exists m) then false
  else
    let '(is_valid, issues) := validate_api_keys (getenv m) in
    if negb is_valid then false
    else
      match missing_among m required_packages [] with
      | _ :: _ => false
      | [] => true
      end.

(** ** [utils.py]: the report *)

(** The four keys [format_campaign_output] reads from its argument. *)
Module Report.
Record t := {
  draft_text : option pystr;
  image_url : option pystr;
  retries : option Z;
  review_feedback : option (list pystr)
}.
End Report.

(** The [enumerate(..., i)] loop over the review history. *)
Fixpoint history_lines (i : Z) (history : list pystr) : list pystr :=
  match history with
  | [] => []
  | feedback :: rest =>
      (py "   " ++ str_of_int i ++ py ". " ++ feedback)
      :: history_lines (i + 1) rest
  end.

Definition report_lines (result : Report.t) : list pystr :=
  let history := default [] (Report.review_feedback result) in
  let output :=
    [ [10%N] ++ repeat_char 61 80;
      [128241%N] ++ py " SOCIAL MEDIA CAMPAIGN - FINAL OUTPUT";
      repeat_char 61 80;
      [10%N; 128221%N] ++ py " AD COPY:";
      repeat_char 45 80;
      default (py "N/A") (Report.draft_text result);
      repeat_char 45 80;
      [10%N; 128444%N; 65039%N] ++ py "  PROMOTIONAL IMAGE:";
      default (py "N/A") (Report.image_url result);
      [10%N; 128202%N] ++ py " GENERATION METADATA:";
      py "   " ++ [8226%N] ++ py " Total Iterations: " ++
        str_of_int (default 0 (Report.retries result));
      py "   " ++ [8226%N] ++ py " Review Cycles: " ++
        str_of_int (Z.of_nat (length history)) ] in
  let output :=
    match history with
    | _ :: _ =>
        output ++ [[10%N; 128203%N] ++ py " REVIEW HISTORY:"] ++
        history_lines 1 history
    | [] => output
    end in
  output ++ [[10%N] ++ repeat_char 61 80 ++ [10%N]].

(** The text returned, and the file written when [save_to_file] is set:
    its name, built from the process id, and its content. *)
Definition format_campaign_output (pid : Z) (result : Report.t)
    (save_to_file : bool) : pystr * option (pystr * pystr) :=
  let formatted_output := join_lines (report_lines result) in
  let written :=
    if save_to_file
    then Some (py "campaign_output_" ++ str_of_int pid ++ py ".txt",
               formatted_output)
    else None in
  (formatted_output, written).

(** The dictionary [run_campaign_generator] returns, as this function
    reads it: it has no key [draft_text]. *)
Definition report_of_result (r : Result.t) : Report.t :=
  {| Report.draft_text := None;
     Report.image_url := Some (Result.image_url r);
     Report.retries := Some (Result.retries r);
     Report.review_feedback := Some (Result.review_feedback r) |}.

(** ** [examples.py] *)

Record example := {
  description : pystr;
  expected_tone : pystr;
  target_platform : pystr
}.

Definition EXAMPLE_ECO_PRODUCT : example :=
  {| description := py "New eco-friendly water bottle, made from bamboo";
     expected_tone := py "Energetic, environmentally conscious";
     target_platform := py "Instagram, Facebook" |}.

Definition EXAMPLE_TECH_PRODUCT : example :=
  {| description := py "AI-powered smart watch with 24/7 health monitoring, sleep tracking, and fitness coaching";
     expected_tone := py "Modern, innovative, trustworthy";
     target_platform := py "LinkedIn, Twitter" |}.

Definition EXAMPLE_FOOD_PRODUCT : example :=
  {| description := py "Organic cold-pressed juice blend with superfood ingredients, no added sugar";
     expected_tone := py "Fresh, healthy, vibrant";
     target_platform := py "Instagram, TikTok" |}.

Definition EXAMPLE_FASHION_PRODUCT : example :=
  {| description := py "Handcrafted leather backpack with laptop compartment, designed for urban professionals";
     expected_tone := py "Sophisticated, practical, stylish";
     target_platform := py "Pinterest, Instagram" |}.

Definition EXAMPLE_SERVICE : example :=
  {| description := py "Meditation app with personalized mindfulness exercises and sleep stories";
     expected_tone := py "Calm, supportive, inviting";
     target_platform := py "Facebook, Reddit" |}.

Definition EXAMPLE_HOME_PRODUCT : example :=
  {| description := py "Smart home security camera with AI motion detection and night vision";
     expected_tone := py "Secure, reliable, cutting-edge";
     target_platform := py "Facebook, YouTube" |}.

Definition EXAMPLE_BEAUTY_PRODUCT : example :=
  {| description := py "Natural skincare serum with vitamin C and hyaluronic acid, cruelty-free";
     expected_tone := py "Luxurious, clean, effective";
     target_platform := py "Instagram, TikTok" |}.

Definition EXAMPLE_FITNESS_PRODUCT : example :=
  {| description := py "Adjustable resistance bands set with workout guide, perfect for home gym";
     expected_tone := py "Motivating, empowering, accessible";
     target_platform := py "YouTube, Instagram" |}.

Definition EXAMPLE_EDUCATION_SERVICE : example :=
  {| description := py "Online coding bootcamp for beginners, learn Python in 8 weeks with mentorship";
     expected_tone := py "Encouraging, professional, growth-focused";
     target_platform := py "LinkedIn, Twitter" |}.

Definition EXAMPLE_PET_PRODUCT : example :=
  {| description := py "Automatic pet feeder with portion control and scheduling via smartphone app";
     expected_tone := py "Caring, convenient, modern";
     target_platform := py "Facebook, Instagram" |}.

Definition ALL_EXAMPLES : list (pystr * example) :=
  [(py "Eco-Friendly Product", EXAMPLE_ECO_PRODUCT);
   (py "Tech Product", EXAMPLE_TECH_PRODUCT);
   (py "Food & Beverage", EXAMPLE_FOOD_PRODUCT);
   (py "Fashion", EXAMPLE_FASHION_PRODUCT);
   (py "Service/App", EXAMPLE_SERVICE);
   (py "Home & Living", EXAMPLE_HOME_PRODUCT);
   (py "Beauty & Personal Care", EXAMPLE_BEAUTY_PRODUCT);
   (py "Fitness", EXAMPLE_FITNESS_PRODUCT);
   (py "Education", EXAMPLE_EDUCATION_SERVICE);
   (py "Pet Products", EXAMPLE_PET_PRODUCT)].

(** The search loop of [run_single_example]: the first example whose name
    equals [example_name] when both are lower-cased. *)
Fixpoint find_example (example_name : pystr)
    (examples : list (pystr * example)) : option example :=
  match examples with
  | [] => None
  | (name, data) :: rest =>
      if bool_decide (lower name = lower example_name) then Some data
      else find_example example_name rest
  end.

Definition run_single_example (w : World) (example_name : pystr)
  : option Result.t :=
  match find_example example_name ALL_EXAMPLES with
  | None => None
  | Some example_data => run_campaign_generator w (description example_data)
  end.

(** One entry of the list [run_all_examples] returns. *)
Record example_run := {
  category : pystr;
  result : Result.t;
  metadata : example
}.

(** The loop of [run_all_examples] from the [i]-th example on; [worlds]
    gives the outside world of each campaign.  It returns the entries
    appended and the seconds slept between campaigns. *)
Fixpoint run_examples_from (worlds : nat -> World) (i total : nat)
    (examples : list (pystr * example)) (results : list example_run)
    (slept : Z) : list example_run * Z :=
  match examples with
  | [] => (results, slept)
  | (name, data) :: rest =>
      let results :=
        match run_campaign_generator (worlds i) (description data) with
        | Some r =>
            results ++ [{| category := name; result := r; metadata := data |}]
        | None => results
        end in
      let slept := if (i <? total)%nat then slept + 5 else slept in
      run_examples_from worlds (S i) total rest results slept
  end.

Definition run_all_examples (worlds : nat -> World) : list example_run * Z :=
  run_examples_from worlds 1 (length ALL_EXAMPLES) ALL_EXAMPLES [] 0.

(** ** [demo.py]: the summary of the demo *)

Definition demo_single_campaign (w : World) (product_description : pystr)
  : option Result.t :=
  match run_campaign_generator w product_description with
  | Some r => Some r
  | None => None
  end.

(** One line of the summary [demo_multi_campaign] prints. *)
Definition demo_summary_line (campaign : pystr) (r : Result.t) : pystr :=
  let approval_status :=
    if Result.is_approved r then [9989%N] ++ py " APPROVED"
    else [9203%N] ++ py " PENDING" in
  [8226%N] ++ py " " ++ campaign ++ py ": " ++ approval_status ++ py " (" ++
  str_of_int (Result.retries r) ++ py " iterations)".

(** ** [verify_project.py] *)

Module verify_project.

Definition checks : list (pystr * list (pystr * pystr)) :=
  [(py "Core Application Files",
    [(py "main.py", py "Main orchestration system");
     (py "demo.py", py "Interactive demo script");
     (py "examples.py", py "Example campaigns");
     (py "utils.py", py "Utility functions")]);
   (py "Configuration Files",
    [(py "requirements.txt", py "Python dependencies");
     (py ".env.example", py "API key template");
     (py "setup.py", py "Setup script")]);
   (py "Documentation Files",
    [(py "README.md", py "Project overview");
     (py "README_NEW.md", py "Enhanced README");
     (py "README_FINAL.md", py "Final comprehensive README");
     (py "SETUP_GUIDE.md", py "Detailed setup guide");
     (py "ARCHITECTURE.md", py "System architecture");
     (py "DESIGN.md", py "Design decisions");
     (py "TECHNICAL_OVERVIEW.md", py "Technical details");
     (py "PRESENTATION.md", py "Presentation outline");
     (py "PROJECT_SUMMARY.md", py "Project summary");
     (py "QUICK_REFERENCE.md", py "Quick reference guide");
     (py "DELIVERABLES.md", py "Deliverables checklist")]);
   (py "GitHub Configuration",
    [(py ".gitignore", py "Git ignore rules");
     (py "LICENSE", py "MIT License");
     (py "CONTRIBUTING.md", py "Contribution guidelines")])].

(** [check_file_exists]: [os.path.exists(filepath)]; the size is printed. *)
Definition check_file_exists (exists_ : pystr -> bool)
    (filepath description : pystr) : bool :=
  if exists_ filepath then true else false.

(** The inner loop of [main] over the files of one category. *)
Fixpoint count_files (exists_ : pystr -> bool) (files : list (pystr * pystr))
    (total_files found_files : Z) : Z * Z :=
  match files with
  | [] => (total_files, found_files)
  | (filepath, description) :: rest =>
      let found_files :=
        if check_file_exists exists_ filepath description
        then found_files + 1 else found_files in
      count_files exists_ rest (total_files + 1) found_files
  end.

Fixpoint count_categories (exists_ : pystr -> bool)
    (categories : list (pystr * list (pystr * pystr)))
    (total_files found_files : Z) : Z * Z :=
  match categories with
  | [] => (total_files, found_files)
  | (_, files) :: rest =>
      let '(total_files, found_files) :=
        count_files exists_ files total_files found_files in
      count_categories exists_ rest total_files found_files
  end.

(** The value [main] returns, the exit status of the script. *)
Definition main (exists_ : pystr -> bool) : Z :=
  let '(total_files, found_files) := count_categories exists_ checks 0 0 in
  if bool_decide (found_files = total_files) then 0 else 1.

(** The files [main] looks for, in the order it does. *)
Definition deliverables : list (pystr * pystr) :=
  mjoin (snd <$> checks).

End verify_project.
(** * Properties *)

(** ** Strings *)

Lemma startswith_spec (p s : pystr) :
  startswith p s = true <-> exists t, s = p ++ t.
Proof.
  revert s. induction p as [|a p IH]; intros s; simpl.
  - split; [intros _; by exists s | done].
  - destruct s as [|b s].
    + split; [done | intros [t Ht]; discriminate].
    + rewrite andb_true_iff, N.eqb_eq, IH. split.
      * intros [-> [t ->]]. by exists t.
      * intros [t Ht]. injection Ht as -> ->. split; [done | by exists t].
Qed.

Lemma contains_spec (needle hay : pystr) :
  contains needle hay = true <-> exists a b, hay = a ++ needle ++ b.
Proof.
  induction hay as [|c hay IH]; simpl.
  - rewrite orb_false_r, startswith_spec. split.
    + intros [t Ht]. by exists [], t.
    + intros [a [b Hab]]. destruct a; [by exists b | discriminate].
  - rewrite orb_true_iff, startswith_spec, IH. split.
    + intros [[t Ht] | [a [b Hab]]].
      * by exists [], t.
      * exists (c :: a), b. by rewrite Hab.
    + intros [[|c' a] [b Hab]].
      * left. by exists b.
      * right. injection Hab as -> ->. by exists a, b.
Qed.

Lemma contains_self (s : pystr) : contains s s = true.
Proof. apply contains_spec. exists [], []. by rewrite app_nil_r. Qed.

Example str_of_int_zero : str_of_int 0 = py "0".
Proof. reflexivity. Qed.

Example strip_reply : strip (py "  APPROVED" ++ [10%N]) = APPROVED.
Proof. reflexivity. Qed.

Example lower_kelvin : lower [65%N; 8490%N; 233%N] = [97%N; 107%N; 233%N].
Proof. reflexivity. Qed.

(** ** What each node writes *)

Lemma writer_step_fields w tick state :
  let state' := step w tick writer state in
  retries state' = retries state + 1 /\
  current_iteration state' = current_iteration state + 1 /\
  review_feedback state' = review_feedback state /\
  compliance_flags state' = compliance_flags state /\
  is_approved state' = is_approved state /\
  final_approved_text state' = final_approved_text state /\
  user_prompt state' = user_prompt state.
Proof.
  unfold step, run_node, writer_node. simpl.
  destruct (invoke _ _ _); simpl; repeat split.
Qed.

Lemma art_director_step_fields w tick state :
  let state' := step w tick art_director state in
  retries state' = retries state /\
  current_iteration state' = current_iteration state + 1 /\
  review_feedback state' = review_feedback state /\
  compliance_flags state' = compliance_flags state /\
  is_approved state' = is_approved state /\
  final_approved_text state' = final_approved_text state /\
  draft_text state' = draft_text state /\
  user_prompt state' = user_prompt state.
Proof. unfold step, run_node, art_director_node. simpl. repeat split. Qed.

Lemma reviewer_step_fields w tick state :
  let state' := step w tick reviewer state in
  let feedback := verdict w tick state in
  retries state' = retries state /\
  current_iteration state' = current_iteration state /\
  review_feedback state' = review_feedback state ++ [feedback] /\
  is_approved state' = signals_approval feedback /\
  draft_text state' = draft_text state /\
  user_prompt state' = user_prompt state /\
  final_approved_text state' =
    (if signals_approval feedback then Some (draft_text state)
     else final_approved_text state) /\
  compliance_flags state' =
    (if negb (signals_approval feedback) &&
        negb (bool_decide (feedback ∈ compliance_flags state))
     then compliance_flags state ++ [feedback]
     else compliance_flags state).
Proof.
  unfold step, run_node, reviewer_node, verdict. simpl.
  destruct (review w tick (draft_text state)) as [feedback status].
  simpl. repeat split.
Qed.

(** ** The router *)

Lemma router_function_first_match state :
  router_function state =
  transition_key
    (first_match (retries state) (latest_entry (review_feedback state))).
Proof.
  unfold router_function, first_match, latest_entry.
  assert (Hlatest :
    match review_feedback state with
    | _ :: _ => default [] (last (review_feedback state))
    | [] => []
    end = default [] (last (review_feedback state))).
  { by destruct (review_feedback state). }
  rewrite Hlatest. clear Hlatest.
  destruct (Z.ltb_spec max_retries (retries state)) as [H|H].
  - rewrite bool_decide_eq_true_2 by lia. done.
  - rewrite bool_decide_eq_false_2 by lia.
    by destruct (signals_approval _).
Qed.

Lemma path_map_generate_image :
  path_lookup generate_image path_map = Some (to_node art_director).
Proof. reflexivity. Qed.

Lemma path_map_revise_draft :
  path_lookup revise_draft path_map = Some (to_node writer).
Proof. reflexivity. Qed.

Lemma router_forced state :
  max_retries < retries state -> router_function state = generate_image.
Proof.
  intros H. unfold router_function.
  destruct (Z.ltb_spec max_retries (retries state)); [done | lia].
Qed.

Lemma router_two_keys state :
  router_function state = generate_image \/
  router_function state = revise_draft.
Proof.
  rewrite router_function_first_match.
  destruct (first_match _ _); simpl; auto.
Qed.

Lemma router_revise_bound state :
  router_function state = revise_draft -> retries state <= max_retries.
Proof.
  intros H. destruct (Z.ltb_spec max_retries (retries state)) as [Hlt|]; [|done].
  rewrite (router_forced _ Hlt) in H. discriminate.
Qed.

(** ** Unfolding the stream *)

Lemma stream_unfold w limit tick n state :
  stream w (S limit) tick n state =
  match successor n (step w tick n state) with
  | None => ([event_of w tick n state], KeyError)
  | Some END => ([event_of w tick n state], Finished)
  | Some (to_node n') =>
      push (event_of w tick n state)
           (stream w limit (S tick) n' (step w tick n state))
  end.
Proof.
  simpl. fold (step w tick n state).
  destruct (successor n (step w tick n state)) as [[n'|]|]; try done.
  unfold push. by destruct (stream w limit (S tick) n' _).
Qed.

Lemma stream_writer w limit tick state :
  stream w (S limit) tick writer state =
  push (event_of w tick writer state)
       (stream w limit (S tick) reviewer (step w tick writer state)).
Proof. by rewrite stream_unfold. Qed.

Lemma stream_art_director w limit tick state :
  stream w (S limit) tick art_director state =
  ([event_of w tick art_director state], Finished).
Proof. by rewrite stream_unfold. Qed.

Lemma stream_reviewer w limit tick state :
  stream w (S limit) tick reviewer state =
  push (event_of w tick reviewer state)
       (stream w limit (S tick)
          (if bool_decide
                (router_function (step w tick reviewer state) = generate_image)
           then art_director else writer)
          (step w tick reviewer state)).
Proof.
  rewrite stream_unfold. unfold successor.
  destruct (router_two_keys (step w tick reviewer state)) as [H|H]; rewrite H.
  - by rewrite path_map_generate_image, bool_decide_eq_true_2.
  - by rewrite path_map_revise_draft.
Qed.

(** ** Termination *)

Lemma writer_runs_cons e events :
  writer_runs (e :: events) =
  ((if bool_decide (ran e = writer) then 1 else 0) + writer_runs events)%nat.
Proof.
  unfold writer_runs. case_bool_decide.
  - by rewrite filter_cons_True.
  - by rewrite filter_cons_False.
Qed.

Lemma retries_after_review w tick state :
  retries (step w (S tick) reviewer (step w tick writer state))
  = retries state + 1.
Proof.
  destruct (reviewer_step_fields w (S tick) (step w tick writer state)) as [-> _].
  by destruct (writer_step_fields w tick state) as [-> _].
Qed.

(** From the writer, with at most [k] revisions left before the ceiling,
    the stream ends in the art director after at most [2k + 3] supersteps. *)
Lemma stream_from_writer w k :
  forall limit tick state,
    max_retries - retries state <= Z.of_nat k ->
    (2 * k + 3 <= limit)%nat ->
    exists events,
      stream w limit tick writer state = (events, Finished) /\
      (length events <= 2 * k + 3)%nat /\
      ran <$> last events = Some art_director /\
      (writer_runs events <= k + 1)%nat.
Proof.
  induction k as [|k IH]; intros limit tick state Hretries Hlimit.
  - destruct limit as [|[|[|limit]]]; try lia.
    rewrite stream_writer, stream_reviewer.
    pose proof (retries_after_review w tick state) as Hr2.
    set (s1 := step w tick writer state) in *.
    set (s2 := step w (S tick) reviewer s1) in *.
    assert (Hforced : router_function s2 = generate_image).
    { apply router_forced. lia. }
    rewrite bool_decide_eq_true_2 by done.
    rewrite stream_art_director.
    eexists. split; [reflexivity|]. simpl. repeat split; try lia.
    unfold writer_runs. simpl. lia.
  - destruct limit as [|[|[|limit]]]; try lia.
    rewrite stream_writer, stream_reviewer.
    pose proof (retries_after_review w tick state) as Hr2.
    set (s1 := step w tick writer state) in *.
    set (s2 := step w (S tick) reviewer s1) in *.
    case_bool_decide as Hroute.
    + rewrite stream_art_director.
      eexists. split; [reflexivity|]. simpl. repeat split; try lia.
      unfold writer_runs. simpl. lia.
    + destruct (IH (S limit) (S (S tick)) s2) as (events & Hev & Hlen & Hlast & Hruns).
      * apply not_eq_sym, not_eq_sym in Hroute.
        destruct (router_two_keys s2) as [Hkey|Hkey]; [done|].
        apply router_revise_bound in Hkey. lia.
      * lia.
      * rewrite Hev. eexists. split; [reflexivity|]. simpl.
        repeat split; try lia.
        -- destruct events as [|e events]; [discriminate|].
           simpl in *. done.
        -- rewrite !writer_runs_cons. simpl. lia.
Qed.

(** C1: for every input brief and every behaviour of the outside world (so
    for every sequence of reviewer verdicts, approving or not), the graph
    reaches END: the stream finishes in the art director after at most nine
    supersteps, at most four of them drafts, within any step ceiling of nine
    or more; the ceiling of the program is ten. *)
Theorem workflow_reaches_done w product_description limit :
  (9 <= limit)%nat ->
  exists events,
    stream w limit 1 entry_point (inputs w product_description)
      = (events, Finished) /\
    (length events <= 9)%nat /\
    ran <$> last events = Some art_director /\
    (writer_runs events <= Z.to_nat max_retries + 1)%nat.
Proof.
  intros Hlimit.
  destruct (stream_from_writer w 3 limit 1 (inputs w product_description))
    as (events & Hev & Hlen & Hlast & Hruns).
  - simpl. unfold max_retries. lia.
  - lia.
  - exists events. repeat split; try done.
Qed.

Lemma workflow_reaches_done_witness :
  (9 <= recursion_limit)%nat /\
  exists events,
    stream offline recursion_limit 1 entry_point (inputs offline bamboo)
      = (events, Finished) /\
    (length events <= 9)%nat /\
    ran <$> last events = Some art_director /\
    (writer_runs events <= Z.to_nat max_retries + 1)%nat.
Proof.
  split.
  - unfold recursion_limit. lia.
  - apply (workflow_reaches_done offline bamboo recursion_limit).
    unfold recursion_limit. lia.
Defined.

(** ** Forced proceed *)

(** C2: whenever [retries] exceeds the ceiling of 3 the router returns the
    key of the art director, whatever the feedback history holds, and the
    graph follows it; and on every state the router is the first-match
    table: ceiling check, then approval check, then revision. *)
Theorem router_forced_proceed_first_match state :
  (retries state > 3 ->
   router_function state = generate_image /\
   successor reviewer state = Some (to_node art_director)) /\
  router_function state =
    transition_key
      (first_match (retries state) (latest_entry (review_feedback state))).
Proof.
  split; [|apply router_function_first_match].
  intros H.
  assert (Hkey : router_function state = generate_image).
  { apply router_forced. unfold max_retries. lia. }
  split; [done|]. unfold successor. by rewrite Hkey.
Qed.

Lemma router_forced_proceed_witness :
  let state :=
    state_at bamboo (py "Try our bottle") [py "[TONE] Make it more energetic"]
      [py "[TONE] Make it more energetic"] 4 in
  retries state > 3 /\
  router_function state = generate_image /\
  successor reviewer state = Some (to_node art_director).
Proof.
  intros state. split; [reflexivity|].
  apply (proj1 (router_forced_proceed_first_match state)). reflexivity.
Defined.

(** ** The approval flag *)

Lemma latest_entry_snoc (history : list pystr) (feedback : pystr) :
  latest_entry (history ++ [feedback]) = feedback.
Proof. unfold latest_entry. by rewrite last_snoc. Qed.

(** The flag and the router read the newest verdict with the same test. *)
Lemma reviewer_flag_matches_router w tick state :
  let state' := step w tick reviewer state in
  is_approved state' = signals_approval (latest_entry (review_feedback state')).
Proof.
  destruct (reviewer_step_fields w tick state) as (_ & _ & Hf & Ha & _).
  cbv zeta in *. by rewrite Hf, Ha, latest_entry_snoc.
Qed.

(** The claim as written fails: the reviewer LLM answers "approved" in
    lower case; the entry appended is not the literal marker, yet
    [is_approved] is set. *)
Lemma approval_marker_counterexample :
  let w := reviewer_says (py "approved") in
  let state := state_at bamboo (py "Try our bamboo bottle") [] [] 1 in
  let state' := step w 2 reviewer state in
  ~ (is_approved state' = true <->
     last (review_feedback state') = Some APPROVED).
Proof.
  intros w state state' [Hexact _].
  assert (Hflag : is_approved state' = true) by reflexivity.
  specialize (Hexact Hflag). vm_compute in Hexact. discriminate.
Qed.

(** The rule-based checker rejects a draft for the phrase "approved by";
    the rejection text itself contains the marker, so the same draft is
    recorded as approved and no flag is kept. *)
Lemma fallback_rejection_read_as_approval :
  let draft := py "Approved by dentists, loved by kids" in
  let state := state_at bamboo draft [] [] 1 in
  let state' := step offline 2 reviewer state in
  verdict offline 2 state = claim_issue (py "approved by") /\
  is_approved state' = true /\
  final_approved_text state' = Some draft /\
  compliance_flags state' = [] /\
  router_function state' = generate_image.
Proof. vm_compute. repeat split. Qed.

(** C3 (as the code has it): after every reviewer step the newest entry of
    [review_feedback] is the verdict just produced; if that verdict is the
    marker APPROVED, in any letter case, [is_approved] is true; if its
    upper-casing does not contain APPROVED, [is_approved] is false. *)
Theorem reviewer_approval_flag w tick state :
  let state' := step w tick reviewer state in
  let feedback := verdict w tick state in
  last (review_feedback state') = Some feedback /\
  (upper feedback = APPROVED -> is_approved state' = true) /\
  (signals_approval feedback = false -> is_approved state' = false).
Proof.
  destruct (reviewer_step_fields w tick state) as (_ & _ & Hf & Ha & _).
  cbv zeta in *. rewrite Hf, Ha, last_snoc. repeat split.
  - intros Hmarker. unfold signals_approval. rewrite Hmarker.
    apply contains_self.
  - done.
Qed.

Lemma reviewer_approval_flag_witness :
  let w := reviewer_says (py "Approved") in
  let state := state_at bamboo (py "Try our bamboo bottle") [] [] 1 in
  upper (verdict w 2 state) = APPROVED /\
  is_approved (step w 2 reviewer state) = true.
Proof.
  intros w state. split; [reflexivity|].
  apply (reviewer_approval_flag w 2 state). reflexivity.
Defined.

(** ** Verdicts outside the two formats *)

(** The claim as written fails: the verdict below is neither the marker
    nor a tagged rejection, and the draft is approved on it. *)
Lemma malformed_verdict_counterexample :
  let w := reviewer_says (py "Looks approved to me") in
  let state := state_at bamboo (py "Try our bamboo bottle") [] [] 1 in
  let state' := step w 2 reviewer state in
  ~ (malformed (verdict w 2 state) = true -> is_approved state' = false).
Proof.
  intros w state state' Hclaim.
  assert (Hmal : malformed (verdict w 2 state) = true) by reflexivity.
  specialize (Hclaim Hmal). vm_compute in Hclaim. discriminate.
Qed.

(** C5 (as the code has it): a verdict whose upper-casing does not contain
    APPROVED, tagged or not, is a rejection: [is_approved] is false, the
    approved text is left as it was, the verdict is stored word for word
    (no category is added) as the newest feedback entry and among the
    compliance flags, and the run goes on: the router sends the graph to
    the writer, or to the art director once the retry ceiling is passed. *)
Theorem unapproved_verdict_is_rejection w tick state :
  let feedback := verdict w tick state in
  let state' := step w tick reviewer state in
  signals_approval feedback = false ->
  is_approved state' = false /\
  final_approved_text state' = final_approved_text state /\
  last (review_feedback state') = Some feedback /\
  feedback ∈ compliance_flags state' /\
  successor reviewer state' =
    Some (to_node (if bool_decide (retries state > 3)
                   then art_director else writer)).
Proof.
  intros feedback state' Hrej. subst feedback state'.
  destruct (reviewer_step_fields w tick state)
    as (Hr & _ & Hf & Ha & _ & _ & Ht & Hc).
  cbv zeta in *. rewrite Hrej in Ha, Ht, Hc. cbn [negb andb] in Hc.
  repeat split; try done.
  - by rewrite Hf, last_snoc.
  - rewrite Hc. case_bool_decide as Hin; cbn [negb]; [done|].
    apply elem_of_app. right. by apply list_elem_of_singleton.
  - unfold successor. rewrite router_function_first_match.
    rewrite Hr, Hf, latest_entry_snoc. unfold first_match, max_retries.
    rewrite Hrej. destruct (bool_decide (retries state > 3)); reflexivity.
Qed.

Lemma unapproved_verdict_witness :
  let w := reviewer_says (py "Needs more sparkle") in
  let state := state_at bamboo (py "Try our bamboo bottle") [] [] 1 in
  let state' := step w 2 reviewer state in
  signals_approval (verdict w 2 state) = false /\
  malformed (verdict w 2 state) = true /\
  is_approved state' = false /\
  successor reviewer state' = Some (to_node writer).
Proof.
  intros w state state'.
  split; [reflexivity|]. split; [reflexivity|].
  destruct (unapproved_verdict_is_rejection w 2 state eq_refl)
    as (Ha & _ & _ & _ & Hs).
  split; [exact Ha | exact Hs].
Defined.

(** ** Runs as chains of supersteps *)

Lemma stream_supersteps w limit :
  forall tick n state,
    supersteps_from w state (stream w limit tick n state).1.
Proof.
  induction limit as [|limit IH]; intros tick n state; [done|].
  rewrite stream_unfold.
  destruct (successor n (step w tick n state)) as [[n'|]|]; simpl.
  - split; [by exists tick | apply IH].
  - split; [by exists tick | done].
  - split; [by exists tick | done].
Qed.

Lemma stream_invariant (P : CreativeWorkflowState -> Prop) w :
  (forall tick n state, P state -> P (step w tick n state)) ->
  forall events state,
    supersteps_from w state events -> P state ->
    forall e, e ∈ events -> P (after e).
Proof.
  intros Hstep. induction events as [|e0 events IH]; intros state Hchain HP e He.
  - by apply elem_of_nil in He.
  - destruct Hchain as [[tick He0] Hchain].
    assert (HP0 : P (after e0)). { rewrite He0. simpl. by apply Hstep. }
    apply elem_of_cons in He as [->|He]; [done|].
    by apply (IH (after e0)).
Qed.

Lemma supersteps_lookup w events :
  forall state i e s,
    supersteps_from w state events ->
    events !! i = Some e -> states_of state events !! i = Some s ->
    exists tick, e = event_of w tick (ran e) s.
Proof.
  induction events as [|e0 events IH]; intros state i e s Hchain He Hs; [done|].
  destruct Hchain as [Hhead Hchain]. destruct i as [|i].
  - simpl in *. by simplify_eq.
  - apply (IH (after e0) i e s Hchain); done.
Qed.

Lemma supersteps_ordered w (R : relation CreativeWorkflowState)
    `{!Reflexive R, !Transitive R} :
  (forall tick n state, R state (step w tick n state)) ->
  forall events state i j si sj,
    supersteps_from w state events -> (i <= j)%nat ->
    states_of state events !! i = Some si ->
    states_of state events !! j = Some sj ->
    R si sj.
Proof.
  intros Hstep.
  assert (Hfrom_start : forall events state j sj,
    supersteps_from w state events ->
    states_of state events !! j = Some sj -> R state sj).
  { induction events as [|e0 events IH]; intros state j sj Hchain Hj.
    - destruct j; simpl in Hj; by simplify_eq.
    - destruct j as [|j]; [simpl in Hj; by simplify_eq|].
      destruct Hchain as [[tick He0] Hchain].
      transitivity (after e0); [rewrite He0; apply Hstep|].
      by apply (IH (after e0) j). }
  induction events as [|e0 events IH]; intros state i j si sj Hchain Hij Hi Hj.
  - destruct i, j; simpl in *; simplify_eq; done.
  - destruct i as [|i].
    + simpl in Hi. simplify_eq. by apply (Hfrom_start (e0 :: events) si j).
    + destruct j as [|j]; [lia|]. destruct Hchain as [_ Hchain].
      apply (IH (after e0) i j si sj Hchain); [lia|done..].
Qed.

(** ** Counters and history *)

Lemma step_advances w tick n state : advances n state (step w tick n state).
Proof.
  destruct n.
  - destruct (writer_step_fields w tick state) as (Hr & Hi & Hf & _).
    cbv zeta in *. unfold advances. rewrite Hr, Hi, Hf.
    repeat split; [lia].
  - destruct (reviewer_step_fields w tick state) as (Hr & Hi & Hf & _).
    cbv zeta in *. unfold advances. rewrite Hr, Hi, Hf.
    repeat split; [lia | by eexists].
  - destruct (art_director_step_fields w tick state) as (Hr & Hi & Hf & _).
    cbv zeta in *. unfold advances. rewrite Hr, Hi, Hf.
    repeat split; [lia].
Qed.

Lemma advances_grows n state state' : advances n state state' -> grows state state'.
Proof.
  intros (Hr & Hi & Hf). repeat split; [|done|].
  - rewrite Hr. case_bool_decide; lia.
  - destruct n; [by rewrite Hf | | by rewrite Hf].
    destruct Hf as [feedback ->]. by apply prefix_app_r.
Qed.

#[global] Instance grows_reflexive : Reflexive grows.
Proof. intros state. repeat split; [lia..|done]. Qed.

#[global] Instance grows_transitive : Transitive grows.
Proof.
  intros s1 s2 s3 (Hr1 & Hi1 & Hf1) (Hr2 & Hi2 & Hf2).
  repeat split; [lia..|by etransitivity].
Qed.

(** C9: in every run, from any state and node and under any step ceiling,
    [retries] and [current_iteration] never decrease and [review_feedback]
    only grows at its end, between any two states of the run; and at each
    superstep [retries] goes up by exactly one if the writer ran and is
    unchanged otherwise, and [review_feedback] gets exactly one more entry
    if the reviewer ran and is unchanged otherwise. *)
Theorem counters_monotone_history_append_only w limit tick n state events ending :
  stream w limit tick n state = (events, ending) ->
  (forall i j si sj,
     (i <= j)%nat ->
     states_of state events !! i = Some si ->
     states_of state events !! j = Some sj ->
     grows si sj) /\
  (forall i e s,
     events !! i = Some e -> states_of state events !! i = Some s ->
     advances (ran e) s (after e)).
Proof.
  intros Hrun.
  assert (Hchain : supersteps_from w state events).
  { pose proof (stream_supersteps w limit tick n state) as H.
    by rewrite Hrun in H. }
  split.
  - intros i j si sj Hij Hi Hj.
    eapply (supersteps_ordered w grows); [|done..].
    intros tick' n' state'. eapply advances_grows, step_advances.
  - intros i e s He Hs.
    destruct (supersteps_lookup w events state i e s Hchain He Hs) as [tick' ->].
    simpl. apply step_advances.
Qed.

Lemma counters_monotone_witness :
  let run :=
    stream offline recursion_limit 1 entry_point (inputs offline hundred_percent) in
  stream offline recursion_limit 1 entry_point (inputs offline hundred_percent)
    = (run.1, run.2) /\
  grows (inputs offline hundred_percent)
        (final_graph_state offline hundred_percent).
Proof.
  intros run.
  assert (Hrun : stream offline recursion_limit 1 entry_point
                   (inputs offline hundred_percent) = (run.1, run.2))
    by (vm_compute; reflexivity).
  split; [exact Hrun|].
  apply (proj1 (counters_monotone_history_append_only
                  offline recursion_limit 1 entry_point _ _ _ Hrun) 0%nat 9%nat).
  - lia.
  - reflexivity.
  - vm_compute. reflexivity.
Defined.

(** ** Compliance flags *)

Lemma reviewer_keeps_flags_distinct w tick state :
  NoDup (compliance_flags state) ->
  NoDup (compliance_flags (step w tick reviewer state)).
Proof.
  intros Hnodup.
  destruct (reviewer_step_fields w tick state) as (_ & _ & _ & _ & _ & _ & _ & Hc).
  cbv zeta in Hc. rewrite Hc.
  destruct (signals_approval _); cbn [negb andb]; [done|].
  case_bool_decide as Hin; cbn [negb]; [done|].
  apply NoDup_app. repeat split; [done| |apply NoDup_singleton].
  intros x Hx Hx'. apply list_elem_of_singleton in Hx'. by subst.
Qed.

Lemma step_keeps_flags_distinct w tick n state :
  NoDup (compliance_flags state) ->
  NoDup (compliance_flags (step w tick n state)).
Proof.
  destruct n.
  - destruct (writer_step_fields w tick state) as (_ & _ & _ & Hc & _).
    cbv zeta in Hc. by rewrite Hc.
  - apply reviewer_keeps_flags_distinct.
  - destruct (art_director_step_fields w tick state) as (_ & _ & _ & Hc & _).
    cbv zeta in Hc. by rewrite Hc.
Qed.

(** C6: in every run no text occurs twice in [compliance_flags], at any
    superstep; and a reviewer step whose verdict is already among the flags
    leaves [compliance_flags] as it is. *)
Theorem compliance_flags_deduplicated w product_description limit :
  (forall e,
     e ∈ (stream w limit 1 entry_point (inputs w product_description)).1 ->
     NoDup (compliance_flags (after e))) /\
  (forall tick state,
     verdict w tick state ∈ compliance_flags state ->
     compliance_flags (step w tick reviewer state) = compliance_flags state).
Proof.
  split.
  - intros e He.
    apply (stream_invariant (fun s => NoDup (compliance_flags s)) w
             (step_keeps_flags_distinct w) _ (inputs w product_description)
             (stream_supersteps w limit 1 entry_point _)); [|done].
    simpl. apply NoDup_nil_2.
  - intros tick state Hin.
    destruct (reviewer_step_fields w tick state) as (_ & _ & _ & _ & _ & _ & _ & Hc).
    cbv zeta in Hc. rewrite Hc.
    rewrite (bool_decide_eq_true_2 _ Hin). cbn [negb]. by rewrite andb_false_r.
Qed.

Lemma compliance_flags_witness :
  let w := reviewer_says (py "[TONE] Make it more energetic") in
  let state :=
    state_at bamboo (py "Try our bamboo bottle")
      [py "[TONE] Make it more energetic"]
      [py "[TONE] Make it more energetic"] 2 in
  verdict w 4 state ∈ compliance_flags state /\
  compliance_flags (step w 4 reviewer state) =
    [py "[TONE] Make it more energetic"].
Proof.
  intros w state.
  assert (Hin : verdict w 4 state ∈ compliance_flags state).
  { apply list_elem_of_singleton. reflexivity. }
  split; [exact Hin|].
  exact (proj2 (compliance_flags_deduplicated w bamboo recursion_limit) 4%nat state Hin).
Defined.

(** ** The image request *)

(** C10: the prompt the art director builds is a fixed frame around the
    input brief: two states with the same [user_prompt] give the same image
    prompt and, in the same world at the same superstep, the same image
    reference, whatever their drafts, approved texts and histories are. *)
Theorem image_prompt_depends_on_brief_only w tick state1 state2 :
  user_prompt state1 = user_prompt state2 ->
  image_prompt state1 = image_prompt state2 /\
  Update.image_url (art_director_node w tick state1) =
    Update.image_url (art_director_node w tick state2).
Proof.
  intros Hbrief.
  assert (Hprompt : image_prompt state1 = image_prompt state2).
  { unfold image_prompt. by rewrite Hbrief. }
  split; [done|]. unfold art_director_node. simpl. by rewrite Hprompt.
Qed.

Lemma image_prompt_witness :
  let state1 :=
    state_at bamboo (py "Try our bamboo bottle") [py "APPROVED"] [] 1 in
  let state2 :=
    state_at bamboo (py "Sip green, stay cool")
      [py "[TONE] Make it more energetic"; py "[CLARITY] Say what it holds"]
      [py "[TONE] Make it more energetic"] 4 in
  user_prompt state1 = user_prompt state2 /\
  draft_text state1 <> draft_text state2 /\
  image_prompt state1 = image_prompt state2.
Proof.
  intros state1 state2. split; [reflexivity|]. split; [discriminate|].
  apply (image_prompt_depends_on_brief_only offline 9 state1 state2).
  reflexivity.
Defined.

(** ** The rule-based checker *)

Lemma banned_claims_find phrases draft_lower issues :
  banned_claims phrases draft_lower issues =
  match find (fun phrase => contains phrase draft_lower) phrases with
  | Some phrase => issues ++ [claim_issue phrase]
  | None => issues
  end.
Proof.
  induction phrases as [|phrase rest IH]; simpl; [done|].
  by destruct (contains phrase draft_lower).
Qed.

(** C7: for every draft the rule-based checker gives one verdict, the
    first that applies of: the claim issue of the first banned phrase found
    in the lower-cased draft, the tone issue if a negative word is found,
    the clarity issue if the draft is longer than 280 characters; APPROVED
    if none applies.  When the reviewer LLM is missing or raises, that
    verdict is the one entry the reviewer appends. *)
Theorem rule_based_review_first_match w tick state :
  rule_based_review (draft_text state) = first_match_verdict (draft_text state) /\
  (invoke (reviewer_llm w) tick (review_prompt (draft_text state)) = None ->
   review_feedback (step w tick reviewer state) =
     review_feedback state ++ [first_match_verdict (draft_text state)]).
Proof.
  assert (Hrule : forall draft, rule_based_review draft = first_match_verdict draft).
  { intros draft. unfold rule_based_review, first_match_verdict.
    cbv zeta. rewrite banned_claims_find.
    destruct (find _ banned_phrases) as [phrase|];
      destruct (existsb (fun word => contains word (lower draft)) negative_words);
      destruct (Z.ltb_spec 280 (len draft));
      rewrite ?bool_decide_eq_true_2, ?bool_decide_eq_false_2 by lia;
      reflexivity. }
  split; [apply Hrule|]. intros Hdown.
  destruct (reviewer_step_fields w tick state) as (_ & _ & Hf & _).
  cbv zeta in Hf. rewrite Hf. unfold verdict, review.
  rewrite Hdown. simpl. by rewrite Hrule.
Qed.

Lemma rule_based_review_witness :
  let state :=
    state_at bamboo (py "The best in the world, never a problem!") [] [] 1 in
  invoke (reviewer_llm offline) 2 (review_prompt (draft_text state)) = None /\
  review_feedback (step offline 2 reviewer state) =
    [py "[CLAIM] Remove unverified claim: 'best in the world'"].
Proof.
  intros state. split; [reflexivity|].
  exact (proj2 (rule_based_review_first_match offline 2 state) eq_refl).
Defined.

(** ** Drafts after a rejection *)

Lemma writer_fallback_draft w tick state :
  invoke (writer_llm w) tick (writer_user_message state) = None ->
  draft_text (step w tick writer state) =
  match review_feedback state with
  | _ :: _ => fallback_revision (take 40 (user_prompt state))
  | [] => fallback_first_draft (take 40 (user_prompt state))
  end.
Proof.
  intros Hdown. unfold step, run_node, writer_node. rewrite Hdown.
  by destruct (review_feedback state).
Qed.

(** The claim as written fails on the fallback path: with no service at
    all and the brief "100% bamboo bottle", the second draft is rejected
    for its claim and the third draft is the second one again. *)
Lemma feedback_propagation_counterexample :
  ~ feedback_propagation
      (stream offline recursion_limit 1 entry_point
         (inputs offline hundred_percent)).1.
Proof.
  intros Hclaim.
  set (events := (stream offline recursion_limit 1 entry_point
                    (inputs offline hundred_percent)).1) in Hclaim.
  vm_compute in events.
  eapply (Hclaim 2%nat); reflexivity.
Qed.

(** C4 (as the code has it): on the fallback path, where the writer LLM is
    missing or raises, the draft written after the first review is not the
    first draft: the first draft is written with an empty feedback history,
    the next one with the verdict in it, and the two templates differ.
    Later fallback drafts use the second template again. *)
Theorem fallback_redraft_differs w product_description limit first second :
  let events :=
    (stream w limit 1 entry_point (inputs w product_description)).1 in
  (forall tick message, invoke (writer_llm w) tick message = None) ->
  events !! 0%nat = Some first ->
  events !! 2%nat = Some second ->
  ran second = writer ->
  draft_text (after second) <> draft_text (after first).
Proof.
  intros events Hdown Hfirst Hsecond Hran. subst events.
  destruct limit as [|[|[|limit]]].
  - done.
  - rewrite stream_writer in Hsecond. done.
  - rewrite stream_writer, stream_reviewer in Hsecond. done.
  - rewrite stream_writer, stream_reviewer in Hfirst, Hsecond.
    set (s1 := step w 1 writer (inputs w product_description)) in *.
    set (s2 := step w 2 reviewer s1) in *.
    simpl in Hfirst. injection Hfirst as <-.
    rewrite stream_unfold in Hsecond.
    assert (Hsecond' : second =
      event_of w 3 (if bool_decide (router_function s2 = generate_image)
                    then art_director else writer) s2).
    { destruct (successor _ _) as [[n'|]|]; simpl in Hsecond; by simplify_eq. }
    clear Hsecond. subst second. unfold event_of in *. cbn [ran after] in *.
    rewrite Hran.
    rewrite !writer_fallback_draft by apply Hdown.
    assert (Hhistory : exists feedback, review_feedback s2 = [] ++ [feedback]).
    { destruct (reviewer_step_fields w 2 s1) as (_ & _ & Hf & _).
      destruct (writer_step_fields w 1 (inputs w product_description))
        as (_ & _ & Hf1 & _).
      cbv zeta in *. fold s1 in Hf, Hf1. fold s2 in Hf.
      rewrite Hf, Hf1. by eexists. }
    destruct Hhistory as [feedback ->]. simpl. discriminate.
Qed.

Lemma fallback_redraft_witness :
  let events :=
    (stream offline recursion_limit 1 entry_point
       (inputs offline hundred_percent)).1 in
  exists first second,
    (forall tick message, invoke (writer_llm offline) tick message = None) /\
    events !! 0%nat = Some first /\
    events !! 2%nat = Some second /\
    ran second = writer /\
    draft_text (after second) <> draft_text (after first).
Proof.
  intros events.
  destruct (events !! 0%nat) as [first|] eqn:Hfirst; [|exfalso; vm_compute in Hfirst; discriminate].
  destruct (events !! 2%nat) as [second|] eqn:Hsecond; [|exfalso; vm_compute in Hsecond; discriminate].
  assert (Hran : ran second = writer).
  { vm_compute in Hsecond. injection Hsecond as <-. reflexivity. }
  exists first, second.
  split; [intros tick message; reflexivity|].
  split; [reflexivity|]. split; [reflexivity|]. split; [exact Hran|].
  exact (fallback_redraft_differs offline hundred_percent recursion_limit
           first second (fun _ _ => eq_refl) Hfirst Hsecond Hran).
Defined.

(** ** The summary returned by the entry point *)

Lemma supersteps_elem w events :
  forall state e,
    supersteps_from w state events -> e ∈ events ->
    exists tick s, e = event_of w tick (ran e) s.
Proof.
  induction events as [|e0 events IH]; intros state e Hchain He.
  - by apply elem_of_nil in He.
  - destruct Hchain as [[tick He0] Hchain].
    apply elem_of_cons in He as [->|He]; [by exists tick, state|].
    by apply (IH (after e0)).
Qed.

(** Every run returns a summary, and the summary is read from the output
    of the art director alone: the image reference and the log are those of
    the run, the other fields are the defaults of [dict.get]. *)
Lemma run_campaign_generator_summary w product_description :
  exists result,
    run_campaign_generator w product_description = Some result /\
    Result.final_approved_text result = py "N/A" /\
    Result.retries result = 0 /\
    Result.review_feedback result = [] /\
    Result.compliance_flags result = [] /\
    Result.is_approved result = false /\
    Result.image_url result =
      image_url (final_graph_state w product_description) /\
    Result.agent_log result =
      agent_execution_log (final_graph_state w product_description).
Proof.
  destruct (stream_from_writer w 3 recursion_limit 1
              (inputs w product_description))
    as (events & Hrun & _ & Hlast & _);
    [simpl; unfold max_retries; lia | unfold recursion_limit; lia |].
  change writer with entry_point in Hrun.
  pose proof (stream_supersteps w recursion_limit 1 entry_point
                (inputs w product_description)) as Hchain.
  unfold run_campaign_generator, final_graph_state.
  rewrite Hrun in *. simpl in Hchain.
  destruct (last events) as [final|] eqn:Hfinal; [|done].
  simpl in Hlast. injection Hlast as Hran.
  destruct (supersteps_elem w events _ final Hchain) as (tick & s & Hev).
  { apply last_Some in Hfinal as [l' ->]. apply elem_of_app. right.
    by apply list_elem_of_singleton. }
  rewrite Hran in Hev. eexists. split; [reflexivity|].
  rewrite Hev. repeat split.
Qed.

(** C8, at the brief "bamboo water bottle" with no service configured: the
    graph ends with one attempt, the verdict APPROVED in the history, the
    draft as approved text and [is_approved] set; the summary returned has
    no attempt, an empty history, "N/A" as approved text and [is_approved]
    unset. *)
Theorem summary_drops_final_state :
  let final := final_graph_state offline bamboo in
  retries final = 1 /\
  review_feedback final = [APPROVED] /\
  final_approved_text final = Some (fallback_first_draft bamboo) /\
  is_approved final = true /\
  exists result,
    run_campaign_generator offline bamboo = Some result /\
    Result.retries result = 0 /\
    Result.review_feedback result = [] /\
    Result.final_approved_text result = py "N/A" /\
    Result.is_approved result = false.
Proof.
  repeat split; try reflexivity.
  destruct (run_campaign_generator_summary offline bamboo)
    as (result & Hrun & Htext & Hretries & Hhistory & _ & Happroved & _).
  exists result. repeat split; done.
Qed.

(** ** Three runs *)

(** Two rejections with the same text, approval at the third review: three
    attempts, three feedback entries, one flag, approved, and the art
    director ran once, as the last of seven supersteps. *)
Example run_approved_on_third_attempt :
  let run := stream (reviewer_approves_from 6) recursion_limit 1 entry_point
               (inputs (reviewer_approves_from 6) bamboo) in
  let final := final_graph_state (reviewer_approves_from 6) bamboo in
  ran <$> run.1 =
    [writer; reviewer; writer; reviewer; writer; reviewer; art_director] /\
  run.2 = Finished /\
  retries final = 3 /\
  is_approved final = true /\
  length (review_feedback final) = 3%nat /\
  length (compliance_flags final) = 1%nat /\
  image_url final = py "Generated: campaign_output_1735689600.png".
Proof. vm_compute. repeat split. Qed.

(** The reviewer never approves: the router forces the way out after the
    review of the fourth attempt; no approval, and an image all the same. *)
Example run_forced_after_fourth_attempt :
  let run := stream (reviewer_approves_from 100) recursion_limit 1 entry_point
               (inputs (reviewer_approves_from 100) bamboo) in
  let final := final_graph_state (reviewer_approves_from 100) bamboo in
  ran <$> run.1 =
    [writer; reviewer; writer; reviewer; writer; reviewer; writer; reviewer;
     art_director] /\
  run.2 = Finished /\
  retries final = 4 /\
  is_approved final = false /\
  final_approved_text final = None /\
  image_url final = py "Generated: campaign_output_1735689600.png".
Proof. vm_compute. repeat split. Qed.

(** No service answers: fallback draft, rule-based approval, simulated
    image; the log shows the two fallbacks. *)
Example run_without_services :
  let final := final_graph_state offline bamboo in
  draft_text final = fallback_first_draft bamboo /\
  review_feedback final = [APPROVED] /\
  status <$> agent_execution_log final =
    [py "FALLBACK"; py "FALLBACK"; py "SUCCESS"] /\
  image_url final = py "Simulated image URL (no API token provided)".
Proof. vm_compute. repeat split. Qed.

(** * Further properties of the workflow *)

(** ** The positions of a run *)

Lemma stream_positions (P : node -> CreativeWorkflowState -> Prop) w :
  (forall tick n state n',
     P n state ->
     successor n (step w tick n state) = Some (to_node n') ->
     P n' (step w tick n state)) ->
  forall limit tick n state,
    P n state ->
    forall e, e ∈ (stream w limit tick n state).1 ->
    exists tick' state', P (ran e) state' /\ e = event_of w tick' (ran e) state'.
Proof.
  intros Hnext. induction limit as [|limit IH]; intros tick n state HP e He.
  - by apply elem_of_nil in He.
  - rewrite stream_unfold in He.
    destruct (successor n (step w tick n state)) as [[n'|]|] eqn:Hsucc;
      simpl in He.
    + apply elem_of_cons in He as [->|He]; [by exists tick, state|].
      apply (IH (S tick) n' (step w tick n state)); [|done].
      by apply (Hnext tick n state n').
    + apply list_elem_of_singleton in He as ->. by exists tick, state.
    + apply list_elem_of_singleton in He as ->. by exists tick, state.
Qed.

Lemma run_invariant_inputs w brief : run_invariant brief writer (inputs w brief).
Proof.
  unfold run_invariant, max_retries. simpl.
  split; [done|]. split; [done|]. split.
  - intros x. split.
    + intros Hx. by apply elem_of_nil in Hx.
    + intros [Hx _]. by apply elem_of_nil in Hx.
  - repeat split; done.
Qed.

Lemma run_invariant_next w brief tick n state n' :
  run_invariant brief n state ->
  successor n (step w tick n state) = Some (to_node n') ->
  run_invariant brief n' (step w tick n state).
Proof.
  intros (Hbrief & Hiter & Hflags & Hpos) Hsucc. destruct n.
  - (* writer, then reviewer *)
    simpl in Hsucc. injection Hsucc as <-.
    destruct (writer_step_fields w tick state)
      as (Hr & Hi & Hf & Hc & Ha & Ht & Hu).
    cbv zeta in *. destruct Hpos as (Hlen & Hmax & Happ & Htext & Hrej).
    unfold run_invariant. rewrite Hr, Hi, Hf, Hc, Ha, Ht, Hu.
    repeat split; try done; try lia; by apply Hflags.
  - (* reviewer, then writer or art director *)
    destruct (reviewer_step_fields w tick state)
      as (Hr & Hi & Hf & Ha & Hd & Hu & Ht & Hc).
    cbv zeta in *. destruct Hpos as (Hlen & Hmax & Happ & Htext & Hrej).
    set (feedback := verdict w tick state) in *.
    set (state' := step w tick reviewer state) in *.
    assert (Hflags' : forall x, x ∈ compliance_flags state' <->
                                x ∈ review_feedback state' /\ rejected x).
    { intros x. rewrite Hc, Hf. unfold rejected.
      destruct (signals_approval feedback) eqn:Hsig; cbn [negb andb].
      - rewrite Hflags, elem_of_app, list_elem_of_singleton. unfold rejected.
        split; [intros [? ?]; by auto|].
        intros [[?| ->] ?]; [done | congruence].
      - case_bool_decide as Hin; cbn [negb].
        + rewrite Hflags, elem_of_app, list_elem_of_singleton. unfold rejected.
          split; [intros [? ?]; by auto|].
          intros [[?| ->] ?]; [done|]. by apply Hflags.
        + rewrite !elem_of_app, list_elem_of_singleton, Hflags.
          unfold rejected. split.
          * intros [[? ?]| ->]; auto.
          * intros [[?| ->] ?]; auto. }
    assert (Hlen' : retries state' = Z.of_nat (length (review_feedback state'))).
    { rewrite Hr, Hf, length_app. simpl. lia. }
    unfold successor in Hsucc.
    pose proof (router_function_first_match state') as Hrouter.
    rewrite Hf, latest_entry_snoc, Hr in Hrouter. unfold first_match in Hrouter.
    unfold run_invariant. rewrite Hu, Hi, Hr.
    split; [done|]. split; [done|]. split; [exact Hflags'|].
    rewrite Hr in Hlen'.
    case_bool_decide as Hceiling.
    + (* forced *)
      rewrite Hrouter in Hsucc. injection Hsucc as <-.
      split; [done|]. split; [done|].
      exists (review_feedback state), feedback.
      rewrite Ha, Ht, Hd, Htext.
      repeat split; try done;
        try (by destruct (signals_approval feedback)); intros _; lia.
    + destruct (signals_approval feedback) eqn:Hsig.
      * rewrite Hrouter in Hsucc. injection Hsucc as <-.
        split; [done|]. split; [done|].
        exists (review_feedback state), feedback.
        rewrite Ha, Ht, Hd, Hsig.
        repeat split; try done; unfold rejected; congruence.
      * rewrite Hrouter in Hsucc. injection Hsucc as <-.
        rewrite Ha, Ht, Hf, Htext.
        repeat split; try done; try lia.
        -- rewrite length_app. simpl. lia.
        -- apply Forall_app. split; [done|]. by apply Forall_singleton.
  - (* art director, then END *)
    discriminate.
Qed.

(** The graph state at the end of a run is the art director's step on a
    state that satisfies the invariant. *)
Lemma final_state_position w brief :
  exists tick state,
    run_invariant brief art_director state /\
    final_graph_state w brief = step w tick art_director state.
Proof.
  destruct (stream_from_writer w 3 recursion_limit 1 (inputs w brief))
    as (events & Hrun & _ & Hlast & _);
    [simpl; unfold max_retries; lia | unfold recursion_limit; lia |].
  change writer with entry_point in Hrun.
  unfold final_graph_state. rewrite Hrun.
  destruct (last events) as [final|] eqn:Hfinal; [|done].
  simpl in Hlast. injection Hlast as Hran.
  destruct (stream_positions (run_invariant brief) w
              (fun tick n state n' => run_invariant_next w brief tick n state n')
              recursion_limit 1 entry_point (inputs w brief)
              (run_invariant_inputs w brief) final)
    as (tick & state & Hinv & Hev).
  { rewrite Hrun. simpl. apply last_Some in Hfinal as [l' ->].
    apply elem_of_app. right. by apply list_elem_of_singleton. }
  rewrite Hran in Hinv, Hev. exists tick, state. split; [done|].
  simpl. by rewrite Hev.
Qed.

(** X1: at the end of every run the approved text and the approval flag
    agree: if [is_approved] is set, [final_approved_text] is the last draft;
    if not, it is [None], and then the run left through the retry ceiling,
    with exactly four attempts. *)
Theorem final_copy_matches_approval w brief :
  let final := final_graph_state w brief in
  final_approved_text final =
    (if is_approved final then Some (draft_text final) else None) /\
  (is_approved final = false -> retries final = 4).
Proof.
  destruct (final_state_position w brief)
    as (tick & state & (_ & _ & _ & _ & _ & history & feedback & Hinv) & ->).
  destruct Hinv as (_ & _ & Ha & Ht & Hforced).
  destruct (art_director_step_fields w tick state)
    as (Hr & _ & _ & _ & Ha' & Ht' & Hd' & _).
  cbv zeta in *. rewrite Ht', Ha', Hd', Hr, Ha, Ht. split; [done|].
  intros Hrej. rewrite (Hforced Hrej). reflexivity.
Qed.

(** X2: in the feedback history a run ends with, only the last verdict can
    be an approval: every earlier entry was read as a rejection, and
    [is_approved] is the reading of the last one. *)
Theorem only_last_verdict_approves w brief :
  let final := final_graph_state w brief in
  exists history feedback,
    review_feedback final = history ++ [feedback] /\
    Forall rejected history /\
    is_approved final = signals_approval feedback.
Proof.
  destruct (final_state_position w brief)
    as (tick & state & (_ & _ & _ & _ & _ & history & feedback & Hinv) & ->).
  destruct Hinv as (Hf & Hrej & Ha & _).
  destruct (art_director_step_fields w tick state)
    as (_ & _ & Hf' & _ & Ha' & _).
  cbv zeta in *. exists history, feedback. by rewrite Hf', Ha', Hf, Ha.
Qed.

(** X3: every run ends with between one and four attempts, as many
    feedback entries as attempts, [current_iteration] one above the
    attempts, and the brief it was started with. *)
Theorem final_counters w brief :
  let final := final_graph_state w brief in
  1 <= retries final <= 4 /\
  Z.of_nat (length (review_feedback final)) = retries final /\
  current_iteration final = retries final + 1 /\
  user_prompt final = brief.
Proof.
  destruct (final_state_position w brief)
    as (tick & state & (Hu & Hi & _ & Hlen & Hmax & history & feedback & Hinv) & ->).
  destruct Hinv as (Hf & _).
  destruct (art_director_step_fields w tick state)
    as (Hr' & Hi' & Hf' & _ & _ & _ & _ & Hu').
  cbv zeta in *. rewrite Hr', Hi', Hf', Hu'.
  rewrite Hf, length_app in Hlen. simpl in Hlen. unfold max_retries in Hmax.
  rewrite Hf, length_app. simpl. repeat split; try done; lia.
Qed.

(** X4: at the end of every run [compliance_flags] holds exactly the
    verdicts of the feedback history that were read as rejections. *)
Theorem flags_are_the_rejections w brief x :
  let final := final_graph_state w brief in
  x ∈ compliance_flags final <->
  x ∈ review_feedback final /\ signals_approval x = false.
Proof.
  destruct (final_state_position w brief)
    as (tick & state & (_ & _ & Hflags & _) & ->).
  destruct (art_director_step_fields w tick state)
    as (_ & _ & Hf' & Hc' & _).
  cbv zeta in *. rewrite Hf', Hc'. apply Hflags.
Qed.

Lemma final_copy_witness :
  let w := reviewer_approves_from 100 in
  is_approved (final_graph_state w bamboo) = false /\
  retries (final_graph_state w bamboo) = 4.
Proof.
  intros w. split; [reflexivity|].
  apply (proj2 (final_copy_matches_approval w bamboo)). reflexivity.
Defined.

(** ** The execution log *)

Lemma step_log w tick n state :
  agent <$> agent_execution_log (step w tick n state) =
  (agent <$> agent_execution_log state) ++ [agent_label n].
Proof.
  destruct n; unfold step, run_node.
  - unfold writer_node. destruct (invoke _ _ _); simpl;
      by rewrite fmap_app.
  - unfold reviewer_node. destruct (review _ _ _). simpl. by rewrite fmap_app.
  - unfold art_director_node. simpl. by rewrite fmap_app.
Qed.

Lemma supersteps_log w events :
  forall state,
    supersteps_from w state events ->
    agent <$> agent_execution_log (default state (after <$> last events)) =
    (agent <$> agent_execution_log state) ++ (agent_label <$> (ran <$> events)).
Proof.
  induction events as [|e events IH]; intros state Hchain.
  - simpl. by rewrite app_nil_r.
  - destruct Hchain as [[tick He] Hchain].
    specialize (IH (after e) Hchain).
    assert (Hlast : default state (after <$> last (e :: events)) =
                    default (after e) (after <$> last events)).
    { destruct events as [|e' events]; [done|]. rewrite last_cons_cons.
      destruct (last (e' :: events)) eqn:Hl; [done|].
      by apply last_None in Hl. }
    pose proof (f_equal after He) as Hafter.
    unfold event_of in Hafter. cbn [after] in Hafter.
    rewrite Hlast, IH, Hafter, step_log, <- app_assoc. done.
Qed.

Lemma execution_log_trail_helper w brief :
  exists events,
    (stream w recursion_limit 1 entry_point (inputs w brief)).1 = events /\
    (3 <= length events <= 9)%nat /\
    ran <$> last events = Some art_director /\
    agent <$> agent_execution_log (final_graph_state w brief) =
      agent_label <$> (ran <$> events).
Proof.
  destruct (stream_from_writer w 3 recursion_limit 1 (inputs w brief))
    as (events & Hrun & Hlen & Hlast & _);
    [simpl; unfold max_retries; lia | unfold recursion_limit; lia |].
  change writer with entry_point in Hrun.
  exists events. rewrite Hrun. split; [done|]. split; [|split; [done|]].
  - split; [|lia].
    unfold recursion_limit in Hrun.
    rewrite stream_writer, stream_reviewer in Hrun.
    set (n := if bool_decide _ then art_director else writer) in Hrun.
    rewrite stream_unfold in Hrun.
    destruct (successor n _) as [[n'|]|]; unfold push in Hrun;
      apply (f_equal fst) in Hrun; cbn [fst] in Hrun; rewrite <- Hrun;
      cbn [length]; lia.
  - pose proof (supersteps_log w _ _
                  (stream_supersteps w recursion_limit 1 entry_point
                     (inputs w brief))) as Hlog.
    unfold final_graph_state. rewrite Hrun in *. simpl in *. exact Hlog.
Qed.

(** X5: the execution log is the trail of the run: in the state a run ends
    with, the agents of the log entries are the nodes that ran, one entry
    per superstep, in the order they ran. *)
Theorem execution_log_is_the_trail w brief :
  agent <$> agent_execution_log (final_graph_state w brief) =
  agent_label <$>
    (ran <$> (stream w recursion_limit 1 entry_point (inputs w brief)).1).
Proof.
  by destruct (execution_log_trail_helper w brief) as (events & -> & _ & _ & ->).
Qed.

(** ** What the entry point returns *)

(** X6: whatever the services do, the entry point returns a summary (its
    failure branches are never taken under the step ceiling of ten); the
    image reference in it is the answer of the image service to the fixed
    frame around the brief, and its log has one entry per superstep,
    between three and nine, the last one of the art director. *)
Theorem entry_point_always_returns w brief :
  exists result tick,
    run_campaign_generator w brief = Some result /\
    Result.image_url result =
      generate_image_with_hf w tick (image_prompt (inputs w brief)) /\
    (3 <= length (Result.agent_log result) <= 9)%nat /\
    agent <$> last (Result.agent_log result) = Some (py "Art Director").
Proof.
  destruct (run_campaign_generator_summary w brief)
    as (result & Hrun & _ & _ & _ & _ & _ & Himg & Hlog).
  destruct (final_state_position w brief)
    as (tick & state & (Hu & _) & Hfinal).
  exists result, tick. split; [done|].
  pose proof (execution_log_trail_helper w brief) as (events & Hev & Hlen & Hlast & Htrail).
  rewrite Himg, Hlog. repeat split.
  - rewrite Hfinal. unfold step, run_node, art_director_node. simpl.
    unfold image_prompt. simpl. by rewrite Hu.
  - apply (f_equal length) in Htrail. rewrite !length_fmap in Htrail. lia.
  - apply (f_equal length) in Htrail. rewrite !length_fmap in Htrail. lia.
  - rewrite <- fmap_last, Htrail, !fmap_last, Hlast. reflexivity.
Qed.

(** ** What the writer is asked *)

Lemma contains_fmap (f : N -> N) (needle hay : pystr) :
  contains needle hay = true -> contains (f <$> needle) (f <$> hay) = true.
Proof.
  rewrite !contains_spec. intros (a & b & ->).
  exists (f <$> a), (f <$> b). by rewrite !fmap_app.
Qed.

(** A verdict that contains the marker as written is read as an approval. *)
Lemma marker_signals_approval (feedback : pystr) :
  contains APPROVED feedback = true -> signals_approval feedback = true.
Proof.
  intros H. unfold signals_approval, upper.
  by apply (contains_fmap upper_cp) in H.
Qed.

Lemma writer_request_cases state :
  writer_user_message state =
  match last (review_feedback state) with
  | Some latest =>
      if contains APPROVED latest then first_request (user_prompt state)
      else revision_request (user_prompt state) latest
  | None => first_request (user_prompt state)
  end.
Proof.
  unfold writer_user_message, first_request, revision_request.
  destruct (last _) as [latest|]; [|done].
  by destruct (contains APPROVED latest).
Qed.

Lemma stream_positions_lookup (P : node -> CreativeWorkflowState -> Prop) w :
  (forall tick n state n',
     P n state ->
     successor n (step w tick n state) = Some (to_node n') ->
     P n' (step w tick n state)) ->
  forall limit tick n state,
    P n state ->
    forall i e s,
      (stream w limit tick n state).1 !! i = Some e ->
      states_of state (stream w limit tick n state).1 !! i = Some s ->
      P (ran e) s.
Proof.
  intros Hnext. induction limit as [|limit IH]; intros tick n state HP i e s.
  - done.
  - rewrite stream_unfold.
    destruct (successor n (step w tick n state)) as [[n'|]|] eqn:Hsucc.
    + unfold push. cbn [fst]. destruct i as [|i].
      * simpl. intros He Hs. by simplify_eq.
      * intros He Hs.
        apply (IH (S tick) n' (step w tick n state)
                 (Hnext tick n state n' HP Hsucc) i e s); done.
    + destruct i as [|[|i]]; simpl; intros He Hs; by simplify_eq.
    + destruct i as [|[|i]]; simpl; intros He Hs; by simplify_eq.
Qed.

(** X7: in every run the writer is asked for a first draft exactly when
    the feedback history is empty, and otherwise for a revision that quotes
    the latest verdict; the branch that drops a verdict containing APPROVED
    is never taken, since the router does not return to the writer after
    such a verdict.  Earlier verdicts are not part of the request. *)
Theorem writer_always_gets_latest_verdict w brief i e state :
  let events := (stream w recursion_limit 1 entry_point (inputs w brief)).1 in
  events !! i = Some e ->
  states_of (inputs w brief) events !! i = Some state ->
  ran e = writer ->
  writer_user_message state =
    match last (review_feedback state) with
    | Some latest => revision_request brief latest
    | None => first_request brief
    end.
Proof.
  intros events He Hs Hran.
  pose proof (stream_positions_lookup (run_invariant brief) w
                (fun tick n state n' => run_invariant_next w brief tick n state n')
                recursion_limit 1 entry_point (inputs w brief)
                (run_invariant_inputs w brief) i e state He Hs) as Hinv.
  rewrite Hran in Hinv.
  destruct Hinv as (Hu & _ & _ & _ & _ & _ & _ & Hrej).
  rewrite writer_request_cases, Hu.
  destruct (last (review_feedback state)) as [latest|] eqn:Hlast; [|done].
  destruct (contains APPROVED latest) eqn:Hmarker; [|done].
  apply marker_signals_approval in Hmarker.
  apply last_Some in Hlast as [history Hhistory].
  rewrite Hhistory in Hrej.
  destruct (proj1 (Forall_app rejected history [latest]) Hrej) as [_ Hlatest].
  apply (proj1 (Forall_singleton rejected latest)) in Hlatest.
  unfold rejected in Hlatest. congruence.
Qed.

Lemma writer_request_witness :
  let w := reviewer_approves_from 6 in
  let events := (stream w recursion_limit 1 entry_point (inputs w bamboo)).1 in
  exists e state,
    events !! 2%nat = Some e /\
    states_of (inputs w bamboo) events !! 2%nat = Some state /\
    ran e = writer /\
    writer_user_message state =
      revision_request bamboo (py "[CLAIM] Remove '100%' - it's unverified").
Proof.
  intros w events.
  destruct (events !! 2%nat) as [e|] eqn:He;
    [|exfalso; vm_compute in He; discriminate].
  destruct (states_of (inputs w bamboo) events !! 2%nat) as [state|] eqn:Hs;
    [|exfalso; vm_compute in Hs; discriminate].
  assert (Hran : ran e = writer).
  { vm_compute in He. injection He as <-. reflexivity. }
  exists e, state. split; [reflexivity|]. split; [reflexivity|].
  split; [exact Hran|].
  rewrite (writer_always_gets_latest_verdict w bamboo 2 e state He Hs Hran).
  vm_compute in Hs. injection Hs as <-. reflexivity.
Defined.

(** ** The rule-based checker, verdict by verdict *)

Lemma rule_based_review_rules draft :
  rule_based_review draft = first_match_verdict draft.
Proof.
  unfold rule_based_review, first_match_verdict. cbv zeta.
  rewrite banned_claims_find.
  destruct (find _ banned_phrases) as [phrase|];
    destruct (existsb (fun word => contains word (lower draft)) negative_words);
    destruct (Z.ltb_spec 280 (len draft));
    rewrite ?bool_decide_eq_true_2, ?bool_decide_eq_false_2 by lia;
    reflexivity.
Qed.

Lemma claim_issue_inj p q : claim_issue p = claim_issue q -> p = q.
Proof.
  unfold claim_issue. intros H.
  apply app_inv_head in H. by apply app_inv_tail in H.
Qed.

Lemma claim_issue_head p :
  exists t, claim_issue p = 91%N :: 67%N :: 76%N :: 65%N :: 73%N :: t.
Proof. eexists. reflexivity. Qed.

Lemma claim_issue_not_fixed p :
  claim_issue p <> APPROVED /\ claim_issue p <> tone_issue /\
  claim_issue p <> clarity_issue.
Proof.
  destruct (claim_issue_head p) as [t ->]. repeat split; discriminate.
Qed.

Lemma find_banned_phrase (f : pystr -> bool) phrase :
  find f banned_phrases = Some phrase ->
  phrase ∈ banned_phrases /\ f phrase = true.
Proof.
  intros H. apply find_some in H as [Hin Hf]. split; [|done].
  by apply list_elem_of_In.
Qed.

(** X8: the rule-based checker approves a draft exactly when the
    lower-cased draft contains none of the banned phrases and none of the
    negative words and the draft has at most 280 characters. *)
Theorem rule_based_approval_iff draft :
  rule_based_review draft = APPROVED <->
  (forall phrase, phrase ∈ banned_phrases ->
                  contains phrase (lower draft) = false) /\
  (forall word, word ∈ negative_words ->
                contains word (lower draft) = false) /\
  len draft <= 280.
Proof.
  rewrite rule_based_review_rules. unfold first_match_verdict.
  destruct (find _ banned_phrases) as [phrase|] eqn:Hfind.
  - apply find_banned_phrase in Hfind as [Hin Hhit]. split.
    + intros H. by destruct (claim_issue_not_fixed phrase) as [? _].
    + intros (Hnone & _). rewrite (Hnone phrase Hin) in Hhit. discriminate.
  - assert (Hnone : forall phrase, phrase ∈ banned_phrases ->
                                   contains phrase (lower draft) = false).
    { intros phrase Hin. apply list_elem_of_In in Hin.
      by apply (find_none _ _ Hfind). }
    destruct (existsb _ negative_words) eqn:Hneg.
    + split; [discriminate|]. intros (_ & Hwords & _).
      apply existsb_exists in Hneg as (word & Hin & Hhit).
      apply list_elem_of_In in Hin. rewrite (Hwords word Hin) in Hhit.
      discriminate.
    + assert (Hwords : forall word, word ∈ negative_words ->
                                    contains word (lower draft) = false).
      { intros word Hin. apply list_elem_of_In in Hin.
        destruct (contains word (lower draft)) eqn:Hhit; [|done].
        assert (existsb (fun word => contains word (lower draft))
                        negative_words = true) as Hex
          by (apply existsb_exists; eauto).
        congruence. }
      case_bool_decide as Hlen.
      * split; [discriminate|]. intros (_ & _ & ?). lia.
      * split; [|done]. intros _. repeat split; [done..|lia].
Qed.

(** X9: the banned phrase "guaranteed" is never the one reported: a draft
    that contains it contains "guarantee", which is looked for first. *)
Theorem guaranteed_is_never_reported draft :
  rule_based_review draft <> claim_issue (py "guaranteed").
Proof.
  rewrite rule_based_review_rules. unfold first_match_verdict.
  destruct (find _ banned_phrases) as [phrase|] eqn:Hfind.
  - intros Heq. apply claim_issue_inj in Heq. subst phrase.
    unfold banned_phrases in Hfind. cbn [find] in Hfind.
    destruct (contains (py "100%") (lower draft)); [discriminate|].
    destruct (contains (py "guarantee") (lower draft)) eqn:Hshort;
      [discriminate|].
    destruct (contains (py "guaranteed") (lower draft)) eqn:Hlong.
    + apply contains_spec in Hlong as (a & b & Hdraft).
      assert (contains (py "guarantee") (lower draft) = true) as Hhit.
      { apply contains_spec. exists a, (100%N :: b). rewrite Hdraft.
        reflexivity. }
      congruence.
    + repeat (destruct (contains _ (lower draft)); [discriminate|]).
      discriminate.
  - intros Heq. symmetry in Heq.
    destruct (claim_issue_not_fixed (py "guaranteed")) as (? & ? & ?).
    destruct (existsb _ negative_words); [done|].
    by case_bool_decide.
Qed.

Lemma banned_phrase_reading phrase :
  phrase ∈ banned_phrases ->
  signals_approval (claim_issue phrase) = true <-> phrase = py "approved by".
Proof.
  unfold banned_phrases. intros Hin.
  repeat (apply elem_of_cons in Hin as [->|Hin];
          [split;
           [intros Hs; vm_compute in Hs; first [discriminate | reflexivity]
           |intros Heq; first [reflexivity | vm_compute in Heq; discriminate]]
          |]).
  by apply elem_of_nil in Hin.
Qed.

(** X10: how the reviewer's fallback verdict is read.  The verdict of the
    rule-based checker counts as an approval exactly when it is APPROVED or
    the claim issue for the phrase "approved by", whose text contains the
    marker; every other issue is read as a rejection. *)
Theorem rule_based_verdict_reading draft :
  signals_approval (rule_based_review draft) = true <->
  rule_based_review draft = APPROVED \/
  rule_based_review draft = claim_issue (py "approved by").
Proof.
  rewrite rule_based_review_rules. unfold first_match_verdict.
  destruct (find _ banned_phrases) as [phrase|] eqn:Hfind.
  - apply find_banned_phrase in Hfind as [Hin _].
    destruct (claim_issue_not_fixed phrase) as (Hnot & _).
    rewrite (banned_phrase_reading phrase Hin). split.
    + intros ->. by right.
    + intros [Heq|Heq]; [done | by apply claim_issue_inj in Heq].
  - destruct (existsb _ negative_words).
    + split; [by vm_compute|]. intros [Heq|Heq]; [discriminate|].
      symmetry in Heq.
      by destruct (claim_issue_not_fixed (py "approved by")) as (_ & ? & _).
    + case_bool_decide.
      * split; [by vm_compute|]. intros [Heq|Heq]; [discriminate|].
        symmetry in Heq.
        by destruct (claim_issue_not_fixed (py "approved by")) as (_ & _ & ?).
      * split; [by left | reflexivity].
Qed.

(** ** The fallback writer and the rule-based checker together *)

(** X11: a fallback draft has at most 101 characters (the brief is cut to
    40), so the rule-based checker never answers it with the clarity
    issue: without LLMs no draft is rejected for its length. *)
Theorem fallback_draft_is_short w tick state :
  invoke (writer_llm w) tick (writer_user_message state) = None ->
  len (draft_text (step w tick writer state)) <= 101 /\
  rule_based_review (draft_text (step w tick writer state)) <> clarity_issue.
Proof.
  intros Hdown. rewrite (writer_fallback_draft w tick state Hdown).
  set (short := take 40 (user_prompt state)).
  assert (Hshort : (length short <= 40)%nat).
  { unfold short. rewrite length_take. lia. }
  assert (Hlen : len (match review_feedback state with
                      | [] => fallback_first_draft short
                      | _ :: _ => fallback_revision short
                      end) <= 101).
  { unfold len, fallback_first_draft, fallback_revision.
    destruct (review_feedback state); rewrite !length_app; simpl; lia. }
  split; [done|].
  rewrite rule_based_review_rules. unfold first_match_verdict.
  destruct (find _ banned_phrases) as [phrase|].
  - by destruct (claim_issue_not_fixed phrase) as (_ & _ & ?).
  - destruct (existsb _ negative_words); [discriminate|].
    case_bool_decide; [lia | discriminate].
Qed.

Lemma fallback_draft_witness :
  let state := state_at hundred_percent [] [] [] 0 in
  invoke (writer_llm offline) 1 (writer_user_message state) = None /\
  len (draft_text (step offline 1 writer state)) <= 101.
Proof.
  intros state. split; [reflexivity|].
  apply (fallback_draft_is_short offline 1 state). reflexivity.
Defined.

(** ** Runs without LLMs *)

Lemma stream_nonempty w limit tick n state :
  (stream w (S limit) tick n state).1 <> [].
Proof.
  rewrite stream_unfold.
  by destruct (successor n (step w tick n state)) as [[n'|]|].
Qed.

Lemma end_state_next w limit tick n n' state :
  successor n (step w tick n state) = Some (to_node n') ->
  end_state w (S (S limit)) tick n state =
  end_state w (S limit) (S tick) n' (step w tick n state).
Proof.
  intros Hsucc. unfold end_state.
  rewrite (stream_unfold w (S limit)), Hsucc. unfold push. cbn [fst].
  pose proof (stream_nonempty w limit (S tick) n' (step w tick n state)) as Hne.
  destruct (stream w (S limit) (S tick) n' (step w tick n state)).1
    as [|e rest] eqn:Hrest; [done|].
  rewrite last_cons_cons.
  destruct (last (e :: rest)) eqn:Hlast; [done|].
  by apply last_None in Hlast.
Qed.

Lemma end_state_art_director w limit tick state :
  end_state w (S limit) tick art_director state = step w tick art_director state.
Proof. unfold end_state. by rewrite stream_art_director. Qed.

Lemma final_graph_state_end w brief :
  final_graph_state w brief =
  end_state w recursion_limit 1 entry_point (inputs w brief).
Proof.
  unfold final_graph_state, end_state.
  by destruct (stream w recursion_limit 1 entry_point (inputs w brief)).
Qed.

(** Where the graph goes after a review. *)
Lemma successor_after_review w tick state :
  successor reviewer (step w tick reviewer state) =
  Some (to_node (if bool_decide (retries state > max_retries)
                 then art_director
                 else if signals_approval (verdict w tick state)
                      then art_director else writer)).
Proof.
  unfold successor. rewrite router_function_first_match.
  destruct (reviewer_step_fields w tick state) as (Hr & _ & Hf & _).
  cbv zeta in *. rewrite Hr, Hf, latest_entry_snoc. unfold first_match.
  case_bool_decide; [reflexivity|].
  by destruct (signals_approval _).
Qed.

Lemma offline_verdict w tick state :
  llms_down w -> verdict w tick state = rule_based_review (draft_text state).
Proof. intros [_ Hdown]. unfold verdict, review. by rewrite Hdown. Qed.

(** One round without LLMs, from a state with a verdict in its history:
    the revision template is written and reviewed. *)
Lemma offline_round w tick state :
  llms_down w -> review_feedback state <> [] ->
  let state' := step w (S tick) reviewer (step w tick writer state) in
  verdict w (S tick) (step w tick writer state) =
    revision_fallback_verdict (user_prompt state) /\
  review_feedback state' =
    review_feedback state ++ [revision_fallback_verdict (user_prompt state)] /\
  retries state' = retries state + 1 /\
  user_prompt state' = user_prompt state.
Proof.
  intros Hdown Hhistory.
  assert (Hv : verdict w (S tick) (step w tick writer state) =
               revision_fallback_verdict (user_prompt state)).
  { rewrite (offline_verdict w _ _ Hdown).
    rewrite (writer_fallback_draft w tick state (proj1 Hdown _ _)).
    by destruct (review_feedback state). }
  destruct (reviewer_step_fields w (S tick) (step w tick writer state))
    as (Hr & _ & Hf & _ & _ & Hu & _).
  destruct (writer_step_fields w tick state)
    as (Hr1 & _ & Hf1 & _ & _ & _ & Hu1).
  cbv zeta in *. by rewrite Hf, Hr, Hu, Hv, Hf1, Hr1, Hu1.
Qed.

Lemma offline_revisions w k :
  llms_down w ->
  forall limit tick state,
    review_feedback state <> [] ->
    retries state = max_retries + 1 - Z.of_nat (S k) ->
    (2 * S k + 1 <= limit)%nat ->
    review_feedback (end_state w limit tick writer state) =
    review_feedback state ++
      (if signals_approval (revision_fallback_verdict (user_prompt state))
       then [revision_fallback_verdict (user_prompt state)]
       else replicate (S k) (revision_fallback_verdict (user_prompt state))).
Proof.
  intros Hdown. induction k as [|k IH]; intros limit tick state Hhist Hr Hlimit.
  - destruct limit as [|[|[|limit]]]; try lia.
    destruct (offline_round w tick state Hdown Hhist) as (Hv & Hf & Hr' & Hu).
    cbv zeta in *.
    rewrite (end_state_next w _ tick writer reviewer) by done.
    rewrite (end_state_next w _ (S tick) reviewer art_director).
    + rewrite end_state_art_director.
      destruct (art_director_step_fields w (S (S tick))
                  (step w (S tick) reviewer (step w tick writer state)))
        as (_ & _ & Hfa & _).
      cbv zeta in Hfa. rewrite Hfa, Hf. by destruct (signals_approval _).
    + rewrite successor_after_review.
      destruct (writer_step_fields w tick state) as (Hr1 & _).
      cbv zeta in Hr1. rewrite Hr1.
      rewrite bool_decide_eq_true_2; [done|]. unfold max_retries in *. lia.
  - destruct limit as [|[|[|limit]]]; try lia.
    destruct (offline_round w tick state Hdown Hhist) as (Hv & Hf & Hr' & Hu).
    cbv zeta in *.
    rewrite (end_state_next w _ tick writer reviewer) by done.
    destruct (signals_approval (revision_fallback_verdict (user_prompt state)))
      eqn:Hsig.
    + rewrite (end_state_next w _ (S tick) reviewer art_director).
      * rewrite end_state_art_director.
        destruct (art_director_step_fields w (S (S tick))
                    (step w (S tick) reviewer (step w tick writer state)))
          as (_ & _ & Hfa & _).
        cbv zeta in Hfa. by rewrite Hfa, Hf.
      * rewrite successor_after_review, Hv, Hsig. by case_bool_decide.
    + rewrite (end_state_next w _ (S tick) reviewer writer).
      * rewrite (IH (S limit) (S (S tick))).
        -- rewrite Hu, Hsig, Hf, <- app_assoc. done.
        -- rewrite Hf. by destruct (review_feedback state).
        -- rewrite Hr'. lia.
        -- lia.
      * rewrite successor_after_review, Hv, Hsig.
        destruct (writer_step_fields w tick state) as (Hr1 & _).
        cbv zeta in Hr1. rewrite Hr1.
        rewrite bool_decide_eq_false_2; [done|]. unfold max_retries in *. lia.
Qed.

(** X12: a run without LLMs is decided by the brief.  With the verdict of
    the rule-based checker on the first-draft template and its verdict on
    the revision template, the feedback history at the end is the first
    verdict alone if it is read as an approval; else the two verdicts if
    the second is; else the first followed by the second three times: the
    revision is the same text each time, and the run leaves through the
    retry ceiling. *)
Theorem offline_run_is_decided_by_brief w brief :
  llms_down w ->
  review_feedback (final_graph_state w brief) =
  let first := first_fallback_verdict brief in
  let second := revision_fallback_verdict brief in
  if signals_approval first then [first]
  else if signals_approval second then [first; second]
  else [first; second; second; second].
Proof.
  intros Hdown. cbv zeta.
  rewrite final_graph_state_end. unfold recursion_limit, entry_point.
  set (s0 := inputs w brief).
  assert (Hv : verdict w 2 (step w 1 writer s0) = first_fallback_verdict brief).
  { rewrite (offline_verdict w _ _ Hdown).
    by rewrite (writer_fallback_draft w 1 s0 (proj1 Hdown _ _)). }
  destruct (reviewer_step_fields w 2 (step w 1 writer s0))
    as (Hr & _ & Hf & _ & _ & Hu & _).
  destruct (writer_step_fields w 1 s0) as (Hr1 & _ & Hf1 & _ & _ & _ & Hu1).
  cbv zeta in *. rewrite Hv, Hf1 in Hf. rewrite Hr1 in Hr. rewrite Hu1 in Hu.
  change (review_feedback s0) with (@nil pystr) in Hf.
  change (retries s0) with 0 in Hr, Hr1.
  change (user_prompt s0) with brief in Hu.
  rewrite app_nil_l in Hf.
  rewrite (end_state_next w _ 1 writer reviewer) by done.
  destruct (signals_approval (first_fallback_verdict brief)) eqn:Hsig.
  - rewrite (end_state_next w _ 2 reviewer art_director).
    + rewrite end_state_art_director.
      destruct (art_director_step_fields w 3 (step w 2 reviewer (step w 1 writer s0)))
        as (_ & _ & Hfa & _).
      cbv zeta in Hfa. by rewrite Hfa, Hf.
    + rewrite successor_after_review, Hv, Hsig, Hr1.
      by rewrite bool_decide_eq_false_2 by (unfold max_retries; lia).
  - rewrite (end_state_next w _ 2 reviewer writer).
    + rewrite (offline_revisions w 2 Hdown).
      * rewrite Hu, Hf.
        destruct (signals_approval (revision_fallback_verdict brief));
          reflexivity.
      * by rewrite Hf.
      * rewrite Hr. unfold max_retries. lia.
      * lia.
    + rewrite successor_after_review, Hv, Hsig, Hr1.
      by rewrite bool_decide_eq_false_2 by (unfold max_retries; lia).
Qed.

Lemma offline_run_witness :
  llms_down offline /\
  review_feedback (final_graph_state offline hundred_percent) =
    [py "[CLAIM] Remove unverified claim: '100%'";
     py "[CLAIM] Remove unverified claim: '100%'";
     py "[CLAIM] Remove unverified claim: '100%'";
     py "[CLAIM] Remove unverified claim: '100%'"].
Proof.
  assert (Hdown : llms_down offline) by (split; intros; reflexivity).
  split; [exact Hdown|].
  rewrite (offline_run_is_decided_by_brief offline hundred_percent Hdown).
  reflexivity.
Defined.

(** * The helper scripts *)

(** ** The setup check *)

(** X13: [validate_api_keys] reports a valid setup exactly when
    GROQ_API_KEY is set to a non-empty value that starts with gsk_ and
    TOGETHER_API_KEY is set to a non-empty value; and it is valid exactly
    when the list of issues it returns is empty.  No other variable is
    read. *)
Theorem validate_api_keys_iff (getenv : pystr -> option pystr) :
  ((validate_api_keys getenv).1 = true <->
   (exists groq, getenv (py "GROQ_API_KEY") = Some groq /\ groq <> [] /\
                 startswith (py "gsk_") groq = true) /\
   (exists together, getenv (py "TOGETHER_API_KEY") = Some together /\
                     together <> [])) /\
  ((validate_api_keys getenv).1 = true <-> (validate_api_keys getenv).2 = []).
Proof.
  unfold validate_api_keys, required_keys. cbn [scan_keys].
  destruct (getenv (py "GROQ_API_KEY")) as [[|c groq]|];
    destruct (getenv (py "TOGETHER_API_KEY")) as [[|c' together]|];
    try destruct (startswith (py "gsk_") (c :: groq)) eqn:Hprefix.
  all: rewrite ?(bool_decide_eq_true_2 (@nil N = [])) by done.
  all: rewrite ?bool_decide_eq_false_2 by discriminate.
  all: cbn [negb andb app length fst snd].
  all: rewrite ?bool_decide_eq_false_2 by discriminate.
  all: rewrite ?bool_decide_eq_true_2 by done.
  all: split; split; try done; try discriminate.
  all: try (intros [(g & Hg & Hne & Hp) (t & Ht & Hnt)]; simplify_eq; congruence).
  all: intros _; split; eexists; repeat split; done.
Qed.

Lemma missing_among_nil m packages missing_packages :
  missing_among m packages missing_packages = [] <->
  missing_packages = [] /\ forall package, package ∈ packages ->
                                           importable m package = true.
Proof.
  revert missing_packages.
  induction packages as [|package rest IH]; intros missing_packages; simpl.
  - split; [intros ->; split; [done|] | by intros [-> _]].
    intros package Hin. by apply elem_of_nil in Hin.
  - destruct (importable m package) eqn:Himp; rewrite IH.
    + split; intros [Hm Hall]; (split; [done|]).
      * intros p Hp. apply elem_of_cons in Hp as [->|Hp]; auto.
      * intros p Hp. apply Hall. apply elem_of_cons. by right.
    + split.
      * intros [Hm _]. by destruct missing_packages.
      * intros [_ Hall]. specialize (Hall package).
        rewrite Himp in Hall. discriminate Hall. apply elem_of_cons. by left.
Qed.

(** X14: [setup_check] answers True exactly when the .env file exists,
    the two API keys pass [validate_api_keys] and each of the five listed
    packages can be imported; everything else on the machine, the
    HUGGINGFACE_API_TOKEN of the image client included, is not looked at. *)
Theorem setup_check_iff m :
  setup_check m = true <->
  dotenv_exists m = true /\
  (validate_api_keys (getenv m)).1 = true /\
  (forall package, package ∈ required_packages ->
                   importable m package = true).
Proof.
  unfold setup_check.
  destruct (dotenv_exists m); cbn [negb]; [|split; [done | by intros [? _]]].
  destruct (validate_api_keys (getenv m)) as [is_valid issues]. cbn [fst].
  destruct is_valid; cbn [negb]; [|split; [done | by intros (_ & ? & _)]].
  pose proof (missing_among_nil m required_packages []) as Hnil.
  destruct (missing_among m required_packages []) as [|package rest].
  - split; [|done]. intros _. repeat split. by apply Hnil.
  - split; [done|]. intros (_ & _ & Hall).
    assert (package :: rest = []) as Habs by (apply Hnil; by split).
    discriminate.
Qed.

(** ** The examples *)

Lemma run_campaign_generator_returns w brief :
  exists r, run_campaign_generator w brief = Some r.
Proof.
  destruct (run_campaign_generator_summary w brief) as (r & Hr & _). eauto.
Qed.

Lemma find_example_none example_name examples :
  find_example example_name examples = None <->
  forall name data, (name, data) ∈ examples ->
                    lower name <> lower example_name.
Proof.
  induction examples as [|[name data] rest IH]; simpl.
  - split; [|done]. intros _ name data Hin. by apply elem_of_nil in Hin.
  - case_bool_decide as Heq.
    + split; [done|]. intros Hall. exfalso.
      apply (Hall name data); [apply elem_of_cons; by left | done].
    + rewrite IH. split.
      * intros Hall n d Hin. apply elem_of_cons in Hin as [Hhd|Hin].
        -- by simplify_eq.
        -- by apply (Hall n d).
      * intros Hall n d Hin. apply (Hall n d). apply elem_of_cons. by right.
Qed.

Lemma find_example_lower name1 name2 examples :
  lower name1 = lower name2 ->
  find_example name1 examples = find_example name2 examples.
Proof.
  intros Heq. induction examples as [|[name data] rest IH]; simpl; [done|].
  by rewrite Heq, IH.
Qed.

(** X15: [run_single_example] returns nothing exactly when no example has
    the given name, letter case aside; for a name it knows it always
    returns a summary; and two names that differ only in letter case give
    the same answer. *)
Theorem run_single_example_lookup w example_name :
  (run_single_example w example_name = None <->
   forall name data, (name, data) ∈ ALL_EXAMPLES ->
                     lower name <> lower example_name) /\
  (forall other,
     lower other = lower example_name ->
     run_single_example w other = run_single_example w example_name).
Proof.
  split.
  - rewrite <- find_example_none. unfold run_single_example.
    destruct (find_example example_name ALL_EXAMPLES) as [data|]; [|done].
    destruct (run_campaign_generator_returns w (description data)) as [r ->].
    done.
  - intros other Heq. unfold run_single_example.
    by rewrite (find_example_lower other example_name).
Qed.

Lemma run_single_example_witness :
  lower (py "TECH PRODUCT") = lower (py "tech product") /\
  run_single_example offline (py "TECH PRODUCT") =
  run_single_example offline (py "tech product").
Proof.
  split; [reflexivity|].
  apply (proj2 (run_single_example_lookup offline (py "tech product"))).
  reflexivity.
Defined.

Lemma run_examples_from_results worlds total examples :
  forall i results slept,
    category <$> (run_examples_from worlds i total examples results slept).1 =
      (category <$> results) ++ (fst <$> examples) /\
    metadata <$> (run_examples_from worlds i total examples results slept).1 =
      (metadata <$> results) ++ (snd <$> examples).
Proof.
  induction examples as [|[name data] rest IH]; intros i results slept; simpl.
  - by rewrite !app_nil_r.
  - destruct (run_campaign_generator_returns (worlds i) (description data))
      as [r ->].
    destruct (IH (S i)
                (results ++ [{| category := name; result := r; metadata := data |}])
                (if (i <? total)%nat then slept + 5 else slept)) as [-> ->].
    rewrite !fmap_app, <- !app_assoc. done.
Qed.

Lemma run_examples_from_slept worlds total examples :
  forall i results slept,
    (run_examples_from worlds i total examples results slept).2 =
    slept + 5 * Z.of_nat (length (filter (fun j => (j < total)%nat)
                                         (seq i (length examples)))).
Proof.
  induction examples as [|[name data] rest IH]; intros i results slept; simpl.
  - lia.
  - rewrite IH. destruct (Nat.ltb_spec i total).
    + rewrite filter_cons_True by done. simpl. lia.
    + rewrite filter_cons_False by lia. lia.
Qed.

(** X16: [run_all_examples] always returns ten entries, one per example
    and in the order of [ALL_EXAMPLES], each with the metadata of its
    example, whatever the services answer; and it sleeps nine times five
    seconds, between the campaigns and not after the last. *)
Theorem run_all_examples_complete worlds :
  category <$> (run_all_examples worlds).1 = fst <$> ALL_EXAMPLES /\
  metadata <$> (run_all_examples worlds).1 = snd <$> ALL_EXAMPLES /\
  length (run_all_examples worlds).1 = 10%nat /\
  (run_all_examples worlds).2 = 45.
Proof.
  unfold run_all_examples.
  destruct (run_examples_from_results worlds (length ALL_EXAMPLES)
              ALL_EXAMPLES 1 [] 0) as [Hc Hm].
  split; [exact Hc|]. split; [exact Hm|]. split.
  - apply (f_equal length) in Hc. rewrite !length_fmap in Hc. exact Hc.
  - rewrite run_examples_from_slept. reflexivity.
Qed.

(** ** The demo *)

(** X17: whatever happened in the campaign, the summary line the demo
    prints for it says PENDING and 0 iterations: the summary it reads has
    [is_approved] unset and no attempts. *)
Theorem demo_summary_always_pending w product_description campaign r :
  demo_single_campaign w product_description = Some r ->
  demo_summary_line campaign r =
    [8226%N] ++ py " " ++ campaign ++ py ": " ++ [9203%N] ++
    py " PENDING (0 iterations)".
Proof.
  unfold demo_single_campaign. intros Hrun.
  destruct (run_campaign_generator_summary w product_description)
    as (r' & Hr' & _ & Hretries & _ & _ & Happroved & _).
  rewrite Hr' in Hrun. injection Hrun as <-.
  unfold demo_summary_line. rewrite Hretries, Happroved.
  rewrite <- !app_assoc. reflexivity.
Qed.

Lemma demo_summary_witness :
  exists r,
    demo_single_campaign (reviewer_approves_from 6) bamboo = Some r /\
    is_approved (final_graph_state (reviewer_approves_from 6) bamboo) = true /\
    demo_summary_line (py "CAMPAIGN 1") r =
      [8226%N] ++ py " CAMPAIGN 1: " ++ [9203%N] ++ py " PENDING (0 iterations)".
Proof.
  destruct (demo_single_campaign (reviewer_approves_from 6) bamboo)
    as [r|] eqn:Hrun; [|exfalso; vm_compute in Hrun; discriminate].
  exists r. split; [reflexivity|]. split; [reflexivity|].
  exact (demo_summary_always_pending (reviewer_approves_from 6) bamboo
           (py "CAMPAIGN 1") r Hrun).
Defined.

(** ** The project verification script *)

Lemma filter_length_all {A} (P : A -> Prop) `{!forall x, Decision (P x)}
    (l : list A) :
  length (filter P l) = length l <-> Forall P l.
Proof.
  induction l as [|x l IH].
  - split; [intros _; apply Forall_nil_2 | done].
  - destruct (decide (P x)) as [HP|HP].
    + rewrite filter_cons_True by done. simpl.
      rewrite Forall_cons. split.
      * intros Hlen. split; [done|]. apply IH. lia.
      * intros [_ Hall]. f_equal. by apply IH.
    + rewrite filter_cons_False by done. simpl. split.
      * intros Hlen. pose proof (length_filter P l). lia.
      * intros Hall. apply Forall_cons in Hall as [? _]. done.
Qed.

Lemma count_files_spec exists_ files :
  forall total_files found_files,
    verify_project.count_files exists_ files total_files found_files =
    (total_files + Z.of_nat (length files),
     found_files +
       Z.of_nat (length (filter (fun file => exists_ file.1 = true) files))).
Proof.
  induction files as [|[filepath description] rest IH];
    intros total_files found_files; simpl.
  - f_equal; lia.
  - rewrite IH. unfold verify_project.check_file_exists.
    destruct (exists_ filepath) eqn:Hex.
    + rewrite filter_cons_True by done. simpl. f_equal; lia.
    + rewrite filter_cons_False by (simpl; congruence). f_equal; lia.
Qed.

Lemma count_categories_spec exists_ categories :
  forall total_files found_files,
    verify_project.count_categories exists_ categories total_files found_files =
    (total_files + Z.of_nat (length (mjoin (snd <$> categories))),
     found_files +
       Z.of_nat (length (filter (fun file => exists_ file.1 = true)
                                (mjoin (snd <$> categories))))).
Proof.
  induction categories as [|[category files] rest IH];
    intros total_files found_files; simpl.
  - f_equal; lia.
  - rewrite count_files_spec, IH.
    change (list_fmap _ _ snd rest) with (snd <$> rest).
    rewrite filter_app, !length_app. f_equal; lia.
Qed.

(** X18: [main] of the verification script returns 0 exactly when every
    one of the 21 listed files exists, and 1 otherwise. *)
Theorem verify_project_exit_status (exists_ : pystr -> bool) :
  (verify_project.main exists_ = 0 <->
   forall filepath description,
     (filepath, description) ∈ verify_project.deliverables ->
     exists_ filepath = true) /\
  (verify_project.main exists_ = 0 \/ verify_project.main exists_ = 1) /\
  length verify_project.deliverables = 21%nat.
Proof.
  unfold verify_project.main. rewrite count_categories_spec.
  fold verify_project.deliverables.
  pose proof (filter_length_all (fun file : pystr * pystr => exists_ file.1 = true)
                verify_project.deliverables) as Hall.
  pose proof (length_filter (fun file : pystr * pystr => exists_ file.1 = true)
                verify_project.deliverables) as Hle.
  split; [|split; [by case_bool_decide; auto | reflexivity]].
  case_bool_decide as Hcount.
  - split; [|done]. intros _ filepath description Hin.
    assert (Hforall : Forall (fun file : pystr * pystr => exists_ file.1 = true)
                        verify_project.deliverables) by (apply Hall; lia).
    rewrite Forall_forall in Hforall. by apply (Hforall (filepath, description)).
  - split; [done|]. intros Hevery. exfalso. apply Hcount.
    assert (Hforall : Forall (fun file : pystr * pystr => exists_ file.1 = true)
                        verify_project.deliverables).
    { apply Forall_forall. intros [filepath description] Hin.
      by apply (Hevery filepath description). }
    apply Hall in Hforall. lia.
Qed.

(** ** The report *)

Lemma history_lines_lookup history :
  forall k i feedback,
    history !! i = Some feedback ->
    history_lines k history !! i =
    Some (py "   " ++ str_of_int (k + Z.of_nat i) ++ py ". " ++ feedback).
Proof.
  induction history as [|first rest IH]; intros k i feedback Hi; [done|].
  destruct i as [|i].
  - injection Hi as ->. change (Z.of_nat 0) with 0. by rewrite Z.add_0_r.
  - change (rest !! i = Some feedback) in Hi.
    change (history_lines (k + 1) rest !! i =
            Some (py "   " ++ str_of_int (k + Z.of_nat (S i)) ++ py ". " ++
                  feedback)).
    replace (k + Z.of_nat (S i)) with (k + 1 + Z.of_nat i) by lia.
    by apply IH.
Qed.

Lemma history_lines_length history :
  forall k, length (history_lines k history) = length history.
Proof.
  induction history as [|first rest IH]; intros k; simpl; [done|].
  by rewrite IH.
Qed.

(** X19: in the report, a non-empty review history is listed after the
    twelve fixed lines and its heading, one line per verdict in order,
    numbered from 1, before the closing rule; with no history there are
    thirteen lines and no heading. *)
Theorem report_lists_history_from_one result :
  let history := default [] (Report.review_feedback result) in
  length (report_lines result) =
    (if bool_decide (history = []) then 13 else 14 + length history)%nat /\
  (forall i feedback,
     history !! i = Some feedback ->
     report_lines result !! (13 + i)%nat =
     Some (py "   " ++ str_of_int (Z.of_nat i + 1) ++ py ". " ++ feedback)).
Proof.
  intros history. unfold report_lines. fold history.
  destruct history as [|first rest] eqn:Hhistory.
  - split; [reflexivity | done].
  - rewrite <- Hhistory. split.
    + rewrite bool_decide_eq_false_2 by (rewrite Hhistory; discriminate).
      rewrite !length_app, history_lines_length. cbn [length]. lia.
    + intros i feedback Hi.
      rewrite lookup_app_l.
      * rewrite (Z.add_comm (Z.of_nat i) 1).
        rewrite <- (history_lines_lookup history 1 i feedback Hi).
        reflexivity.
      * apply lookup_lt_Some in Hi.
        rewrite !length_app, history_lines_length. cbn [length].
        unfold pystr in *. lia.
Qed.

Lemma report_history_witness :
  let result :=
    {| Report.draft_text := Some (py "Try our bamboo bottle");
       Report.image_url := None;
       Report.retries := Some 2;
       Report.review_feedback :=
         Some [py "[TONE] Make it more energetic"; py "APPROVED"] |} in
  default [] (Report.review_feedback result) !! 1%nat = Some (py "APPROVED") /\
  report_lines result !! 14%nat = Some (py "   2. APPROVED").
Proof.
  intros result. split; [reflexivity|].
  exact (proj2 (report_lists_history_from_one result) 1%nat (py "APPROVED")
           eq_refl).
Defined.

(** X20: the report of a summary returned by [run_campaign_generator]
    shows N/A for the ad copy, since the summary has no key [draft_text],
    0 iterations, 0 review cycles and no review history, for every brief
    and whatever the services answered. *)
Theorem report_of_summary_is_blank w brief r :
  run_campaign_generator w brief = Some r ->
  let lines := report_lines (report_of_result r) in
  lines !! 5%nat = Some (py "N/A") /\
  lines !! 10%nat =
    Some (py "   " ++ [8226%N] ++ py " Total Iterations: 0") /\
  lines !! 11%nat = Some (py "   " ++ [8226%N] ++ py " Review Cycles: 0") /\
  length lines = 13%nat.
Proof.
  intros Hrun.
  destruct (run_campaign_generator_summary w brief)
    as (r' & Hr' & _ & Hretries & Hhistory & _).
  rewrite Hr' in Hrun. injection Hrun as <-.
  unfold report_lines, report_of_result. cbn [Report.review_feedback
    Report.draft_text Report.retries Report.image_url default].
  rewrite Hretries, Hhistory. repeat split.
Qed.

Lemma report_of_summary_witness :
  exists r,
    run_campaign_generator (reviewer_approves_from 6) bamboo = Some r /\
    length (review_feedback (final_graph_state (reviewer_approves_from 6) bamboo))
      = 3%nat /\
    report_lines (report_of_result r) !! 5%nat = Some (py "N/A") /\
    length (report_lines (report_of_result r)) = 13%nat.
Proof.
  destruct (run_campaign_generator (reviewer_approves_from 6) bamboo)
    as [r|] eqn:Hrun; [|exfalso; vm_compute in Hrun; discriminate].
  exists r. split; [reflexivity|]. split; [reflexivity|].
  destruct (report_of_summary_is_blank (reviewer_approves_from 6) bamboo r Hrun)
    as (Hcopy & _ & _ & Hlen).
  split; [exact Hcopy | exact Hlen].
Defined.

(** ** The image reference *)

(** X21: every run ends with an image reference of one of three forms:
    the note that the image is simulated (no client), the name of the saved
    file built from the clock, or an error note that quotes at most the
    first 50 characters of the error; the summary returned carries the
    same reference. *)
Theorem image_reference_forms w brief :
  let reference := image_url (final_graph_state w brief) in
  (reference = py "Simulated image URL (no API token provided)" \/
   (exists seconds,
      reference = py "Generated: campaign_output_" ++ str_of_int seconds ++
                  py ".png") \/
   (exists excerpt,
      (length excerpt <= 50)%nat /\
      reference = py "[Image generation error: " ++ excerpt ++ py "...]")) /\
  Result.image_url <$> run_campaign_generator w brief = Some reference.
Proof.
  intros reference. subst reference. split.
  - destruct (final_state_position w brief) as (tick & state & _ & ->).
    unfold step, run_node, art_director_node, merge. cbn [image_url default
      Update.image_url].
    unfold generate_image_with_hf.
    destruct (HF_CLIENT w) as [client|]; [|by left].
    destruct (client tick (image_prompt state)) as [|message].
    + right. left. by eexists.
    + right. right. exists (take 50 message). split; [|done].
      rewrite length_take. lia.
  - destruct (run_campaign_generator_summary w brief)
      as (r & -> & _ & _ & _ & _ & _ & Himg & _).
    simpl. by rewrite Himg.
Qed.

Lemma guaranteed_witness :
  rule_based_review (py "Guaranteed fresh for 24 hours") =
    claim_issue (py "guarantee") /\
  rule_based_review (py "Guaranteed fresh for 24 hours") <>
    claim_issue (py "guaranteed").
Proof.
  split; [reflexivity|].
  apply (guaranteed_is_never_reported (py "Guaranteed fresh for 24 hours")).
Defined.
